(** * Stranger Beers ingestion API: field extraction, phone normalisation,
      signature verification, signup reconciliation and payment matching.

    A shallow embedding of
      - apps/ingestion_api/src/tally/parse.py
      - apps/ingestion_api/src/tally/verify.py
      - packages/shared/src/shared/phone.py
      - apps/ingestion_api/src/services/signup.py
      - apps/ingestion_api/src/services/payment.py
      - apps/ingestion_api/src/models.py
    together with the properties of the design document that concern them.

    Conventions of the embedding.
      - A Python [str] is a [string] whose characters are the code points
        below 256; text outside that range is not covered.
      - [T | None] is [option T].
      - A raised exception is the [Raise] constructor of [Res].
      - JSON numbers are integers ([Z]); floats are not covered.
      - Logging calls ([logger.info], [print]) have no effect on the values
        studied here and are dropped. *)

From Stdlib Require Import ZArith NArith Ascii String List Bool Lia.
From Stdlib Require Import DecimalString.
From Stdlib.Strings Require Byte.
From stdpp Require Import base option list strings gmap fin_maps.

Local Open Scope Z_scope.

(* ===================================================================== *)
(** * Python built-ins used by the code *)
(* ===================================================================== *)

Module Py.

(** Exceptions the modelled code can raise. *)
Inductive Exc := TypeError | ValueError.

Inductive Res (A : Type) : Type :=
| Ok (a : A)
| Raise (e : Exc).
Arguments Ok {A} a.
Arguments Raise {A} e.

Definition res_bind {A B} (m : Res A) (k : A -> Res B) : Res B :=
  match m with
  | Ok a => k a
  | Raise e => Raise e
  end.

Definition code (c : ascii) : N := N_of_ascii c.

Definition between (lo hi n : N) : bool := ((lo <=? n) && (n <=? hi))%N.

(** [str.isspace] on one character (code points below 256). *)
Definition isspace (c : ascii) : bool :=
  let n := code c in
  between 9 13 n || between 28 32 n || (n =? 133)%N || (n =? 160)%N.

Definition nonempty (s : string) : bool :=
  match s with
  | EmptyString => false
  | String _ _ => true
  end.

Fixpoint lstrip (s : string) : string :=
  match s with
  | EmptyString => EmptyString
  | String c r => if isspace c then lstrip r else s
  end.

Fixpoint rstrip (s : string) : string :=
  match s with
  | EmptyString => EmptyString
  | String c r =>
      let r' := rstrip r in
      if isspace c && negb (nonempty r') then EmptyString else String c r'
  end.

(** [s.strip()] *)
Definition strip (s : string) : string := rstrip (lstrip s).

(** [str.lower] on one character (code points below 256). *)
Definition lower_char (c : ascii) : ascii :=
  let n := code c in
  if between 65 90 n || (between 192 222 n && negb (n =? 215)%N)
  then ascii_of_N (n + 32)
  else c.

Fixpoint lower (s : string) : string :=
  match s with
  | EmptyString => EmptyString
  | String c r => String (lower_char c) (lower r)
  end.

(** [str.upper] restricted to the characters a-z; it is applied by the code
    to hexadecimal digits only. *)
Definition upper_char (c : ascii) : ascii :=
  let n := code c in
  if between 97 122 n then ascii_of_N (n - 32) else c.

Fixpoint upper (s : string) : string :=
  match s with
  | EmptyString => EmptyString
  | String c r => String (upper_char c) (upper r)
  end.

(** [s[:n]] *)
Fixpoint take (n : nat) (s : string) : string :=
  match n, s with
  | S n', String c r => String c (take n' r)
  | _, _ => EmptyString
  end.

(** [s.startswith(p)] *)
Fixpoint startswith (p s : string) : bool :=
  match p, s with
  | EmptyString, _ => true
  | String a p', String b s' => if Ascii.eqb a b then startswith p' s' else false
  | String _ _, EmptyString => false
  end.

(** [needle in hay] *)
Fixpoint contains (needle hay : string) : bool :=
  startswith needle hay ||
  match hay with
  | EmptyString => false
  | String _ r => contains needle r
  end.

(** [s.endswith(suffix)] *)
Fixpoint endswith (suffix s : string) : bool :=
  String.eqb suffix s ||
  match s with
  | EmptyString => false
  | String _ r => endswith suffix r
  end.

(** [sep.join(l)] *)
Definition join (sep : string) (l : list string) : string := String.concat sep l.

(** [str(n)] for an integer. *)
Definition str_int (n : Z) : string := NilZero.string_of_int (Z.to_int n).

Definition hex_digit (n : N) : ascii :=
  if (n <? 10)%N then ascii_of_N (48 + n) else ascii_of_N (87 + n).

(** Two lowercase hexadecimal digits of a value below 256. *)
Definition hex2 (n : N) : string :=
  String (hex_digit (n / 16)) (String (hex_digit (n mod 16)) EmptyString).

(** [str.isprintable] on one character (code points below 256). *)
Definition isprintable (c : ascii) : bool :=
  let n := code c in
  between 32 126 n || (between 161 255 n && negb (n =? 173)%N).

Definition quote1 : ascii := "'"%char.
Definition quote2 : ascii := ascii_of_nat 34.
Definition backslash : ascii := "\"%char.

Fixpoint has_char (c : ascii) (s : string) : bool :=
  match s with
  | EmptyString => false
  | String d r => Ascii.eqb c d || has_char c r
  end.

Definition repr_char (q c : ascii) : string :=
  let n := code c in
  if Ascii.eqb c q || Ascii.eqb c backslash then String backslash (String c EmptyString)
  else if (n =? 9)%N then String backslash "t"
  else if (n =? 10)%N then String backslash "n"
  else if (n =? 13)%N then String backslash "r"
  else if isprintable c then String c EmptyString
  else String backslash (String "x"%char (hex2 n)).

Fixpoint repr_body (q : ascii) (s : string) : string :=
  match s with
  | EmptyString => EmptyString
  | String c r => repr_char q c +:+ repr_body q r
  end.

(** [repr(s)] for a string. *)
Definition repr_str (s : string) : string :=
  let q := if has_char quote1 s && negb (has_char quote2 s) then quote2 else quote1 in
  String q (repr_body q s +:+ String q EmptyString).

(** Truthiness of an optional string: [None] and the empty string are
    falsy. *)
Definition truthy (o : option string) : bool :=
  match o with
  | Some s => nonempty s
  | None => false
  end.

(** [a or b] on optional strings. *)
Definition or_else (a b : option string) : option string :=
  if truthy a then a else b.

End Py.

Notation "'let?' x ':=' m 'in' k" := (Py.res_bind m (fun x => k))
  (at level 10, x name, m at level 100, k at level 200).

(* ===================================================================== *)
(** * tally/parse.py : the field extractor *)
(* ===================================================================== *)

Module Parse.
Import Py.

(** A JSON scalar as it can occur in a submitted value or an option id. *)
Inductive Scalar :=
| SNone
| SBool (b : bool)
| SInt (n : Z)
| SStr (s : string).

(** The [value] of a submitted field: a scalar or a list of scalars. *)
Inductive Value :=
| VScalar (x : Scalar)
| VList (l : list Scalar).

(** One entry of a field's [options] list. *)
Record TallyOption := { opt_id : Scalar; opt_text : string }.

(** One submitted field.  [f_key], [f_label] and [f_type] are the empty
    string when the entry is missing, which is the default the code passes
    to [dict.get]; [f_options] is the empty list likewise. *)
Record Field := {
  f_key : string;
  f_label : string;
  f_value : Value;
  f_type : string;
  f_options : list TallyOption
}.

(** The raw payload, [payload["data"]]. *)
Record Payload := {
  formId : string;
  submissionId : option string;
  responseId : option string;
  fields : list Field
}.

(** Truthiness ([if v]). *)
Definition scalar_truthy (x : Scalar) : bool :=
  match x with
  | SNone => false
  | SBool b => b
  | SInt n => negb (n =? 0)
  | SStr s => nonempty s
  end.

Definition value_truthy (v : Value) : bool :=
  match v with
  | VScalar x => scalar_truthy x
  | VList l => match l with [] => false | _ :: _ => true end
  end.

(** Equality of dictionary keys ([==]): booleans are the integers 0 and 1. *)
Definition scalar_eqb (a b : Scalar) : bool :=
  match a, b with
  | SNone, SNone => true
  | SStr s, SStr t => String.eqb s t
  | SInt n, SInt m => n =? m
  | SBool x, SBool y => Bool.eqb x y
  | SBool x, SInt m | SInt m, SBool x => (if x then 1 else 0) =? m
  | _, _ => false
  end.

(** [str(x)] *)
Definition str_scalar (x : Scalar) : string :=
  match x with
  | SNone => "None"
  | SBool true => "True"
  | SBool false => "False"
  | SInt n => str_int n
  | SStr s => s
  end.

(** [repr(x)] *)
Definition repr_scalar (x : Scalar) : string :=
  match x with
  | SStr s => repr_str s
  | _ => str_scalar x
  end.

(** [str(value)] *)
Definition str_value (v : Value) : string :=
  match v with
  | VScalar x => str_scalar x
  | VList l => "[" +:+ join ", " (map repr_scalar l) +:+ "]"
  end.

Definition opt_nonempty (s : string) : option string :=
  if nonempty s then Some s else None.

Definition _normalize_value (value : Value) : option string :=
  match value with
  | VScalar SNone => None
  | VScalar (SStr s) => opt_nonempty (strip s)
  | VList l =>
      let non_empty := map (fun v => strip (str_scalar v)) (filter (fun v => scalar_truthy v = true) l) in
      match non_empty with
      | [] => None
      | _ :: _ => Some (join ", " non_empty)
      end
  | VScalar x => opt_nonempty (strip (str_scalar x))
  end.

(** The dictionary [{opt.get("id"): opt.get("text") for opt in options}]:
    of two options with equal ids the later one is kept. *)
Fixpoint option_lookup (options : list TallyOption) (v : Scalar) : option string :=
  match options with
  | [] => None
  | opt :: rest =>
      match option_lookup rest v with
      | Some t => Some t
      | None => if scalar_eqb (opt_id opt) v then Some (opt_text opt) else None
      end
  end.

Definition resolve_one (options : list TallyOption) (v : Scalar) : string :=
  match option_lookup options v with
  | Some t => t
  | None => str_scalar v
  end.

Definition _resolve_option_text (field : Field) : option string :=
  let value := f_value field in
  let options := f_options field in
  if negb (value_truthy value) || match options with [] => true | _ => false end
  then _normalize_value value
  else
    match value with
    | VList l =>
        let texts := map (resolve_one options) l in
        match texts with
        | [] => None
        | _ :: _ => Some (join ", " texts)
        end
    | VScalar x =>
        match option_lookup options x with
        | Some t => Some t
        | None => _normalize_value value
        end
    end.

(** A field map: logical name to ordered candidate keys and labels. *)
Definition FieldMap := list (string * list string).

Fixpoint field_map_get (field_map : FieldMap) (logical_name : string) : list string :=
  match field_map with
  | [] => []
  | (n, cands) :: rest =>
      if String.eqb n logical_name then cands else field_map_get rest logical_name
  end.

Definition SIGNUP_FIELD_MAP : FieldMap :=
  [ ("registration_id", ["registration_id"; "registrationId"; "Registration ID"]);
    ("event_id", ["event_id"; "eventId"; "Event ID"]);
    ("phone", ["phone"; "Phone"; "phone_number"; "Phone Number"; "Mobile"]);
    ("email", ["email"; "Email"; "email_address"; "Email Address"]);
    ("full_name", ["full_name"; "name"; "Name"; "Full Name"; "Your Name"]) ].

Definition FORM_FIELD_MAP : FieldMap :=
  [ ("first_name", ["question_EQROMA"; "What's your first name?"]);
    ("phone", ["question_rA4Zvp"; "Whats your phone number?"]);
    ("first_time", ["question_4x6bzd"; "First time at Stranger Beers?"]);
    ("age", ["question_72AkM6"; "How old are you?"]);
    ("gender", ["question_jQRVvY"; "How do you identify?"]);
    ("country", ["question_62lBMo"; "Where are you from"]);
    ("background", ["question_ALgXyo"; "What's your background"]);
    ("creative_expression_score", ["question_2NW67g"; "creative expression"]);
    ("social_anxiety_score", ["question_xaqWvE"; "feel nervous"]);
    ("emotional_intuition_score", ["question_NWjZdN"; "emotional intuition"]);
    ("solitary_preference_score", ["question_Z67BDA"; "solitary hobbies"]);
    ("interests_active_outdoors", ["question_qArlv8"; "Active & Outdoors"]);
    ("interests_creativity", ["question_Q5ZQkl"; "Creativity & Expression"]);
    ("interests_intellectual", ["question_9DkKMK"; "Intellectual & Curious"]);
    ("interests_food_social", ["question_eeJXvJ"; "Food & Social"]);
    ("interests_games", ["question_W5W71L"; "Games & Collecting"]);
    ("interests_mind_self", ["question_aYLMvW"; "Mind & Self"]);
    ("mbti", ["question_bxpJv0"; "MBTI"]);
    ("optional_note", ["question_BkyRe4"; "One last"]) ].

Definition PAYMENT_FIELD_MAP : FieldMap :=
  [ ("registration_id", ["registration_id"; "registrationId"; "Registration ID"]);
    ("event_id", ["event_id"; "eventId"; "Event ID"]);
    ("phone", ["phone"; "Phone"; "phone_number"; "Phone Number"; "Mobile";
               "What's the phone number you signed up with?"]);
    ("email", ["email"; "Email"; "email_address"; "Email Address";
               "Reserve your drink! (email)"]) ].

(** The two lookup dictionaries of [extract_field_value], filled field by
    field: a later field with the same lowercased key replaces an earlier
    one, and an empty key or label is not entered. *)
Definition index_step (proj : Field -> string) (d : gmap string Value) (field : Field)
  : gmap string Value :=
  if nonempty (proj field) then <[lower (proj field) := f_value field]> d else d.

Definition build_index (proj : Field -> string) (fields : list Field) : gmap string Value :=
  fold_left (index_step proj) fields ∅.

(** The loop [for candidate in possible_keys]. *)
Fixpoint search_candidates (by_key by_label : gmap string Value)
    (possible_keys : list string) : option string :=
  match possible_keys with
  | [] => None
  | candidate :: rest =>
      let candidate_lower := lower candidate in
      match by_key !! candidate_lower with
      | Some value => _normalize_value value
      | None =>
          match by_label !! candidate_lower with
          | Some value => _normalize_value value
          | None => search_candidates by_key by_label rest
          end
      end
  end.

Definition extract_field_value (fields : list Field) (logical_name : string)
    (field_map : FieldMap) : option string :=
  let possible_keys := field_map_get field_map logical_name in
  match possible_keys with
  | [] => None
  | _ :: _ =>
      let by_key := build_index f_key fields in
      let by_label := build_index f_label fields in
      search_candidates by_key by_label possible_keys
  end.

(** ** Full-profile extraction *)

(** What [setattr] stores in an [ExtractedFormFields] attribute. *)
Inductive AttrValue :=
| ANone
| AInt (n : Z)
| AStr (s : string).

Definition of_opt_str (o : option string) : AttrValue :=
  match o with
  | Some s => AStr s
  | None => ANone
  end.

(** An [ExtractedFormFields] instance: its attribute dictionary. *)
Abbreviation ExtractedFormFields := (gmap string AttrValue).

(** [ExtractedFormFields()]: every attribute defaults to [None]. *)
Definition ExtractedFormFields_default : ExtractedFormFields :=
  list_to_map (map (fun item => (fst item, ANone)) FORM_FIELD_MAP).

Definition getattr (r : ExtractedFormFields) (attr_name : string) : AttrValue :=
  default ANone (r !! attr_name).

Definition setattr (r : ExtractedFormFields) (attr_name : string) (v : AttrValue)
  : ExtractedFormFields := <[attr_name := v]> r.

(** [{f.get("key", "").lower(): f for f in fields}] *)
Definition fields_by_key (fields : list Field) : gmap string Field :=
  fold_left (fun d f => <[lower (f_key f) := f]> d) fields ∅.

(** The inner loop [for key in possible_keys: ... break]: the field of the
    first candidate present in the key dictionary. *)
Fixpoint first_field (by_key : gmap string Field) (possible_keys : list string)
  : option Field :=
  match possible_keys with
  | [] => None
  | key :: rest =>
      match by_key !! lower key with
      | Some field => Some field
      | None => first_field by_key rest
      end
  end.

Definition is_choice_type (t : string) : bool :=
  String.eqb t "MULTIPLE_CHOICE" || String.eqb t "DROPDOWN" || String.eqb t "MULTI_SELECT".

(** The value kept for an attribute once the branch on the field type has
    produced [value]. *)
Definition attr_value (attr_name : string) (value : AttrValue) : AttrValue :=
  if endswith "_score" attr_name then
    match value with
    | AInt n => AInt n
    | _ => ANone
    end
  else
    match value with
    | AStr s => AStr s
    | AInt n => if negb (n =? 0) then AStr (str_int n) else ANone
    | ANone => ANone
    end.

Section WithInt.

(** Python's built-in [int] applied to a [str]; [None] stands for the
    [ValueError] it raises on text that is not an integer literal. *)
Variable int_of_str : string -> option Z.

(** [int(raw_value)] *)
Definition py_int (raw_value : Value) : Res Z :=
  match raw_value with
  | VScalar (SInt n) => Ok n
  | VScalar (SBool b) => Ok (if b then 1 else 0)
  | VScalar (SStr s) =>
      match int_of_str s with
      | Some n => Ok n
      | None => Raise ValueError
      end
  | VScalar SNone => Raise TypeError
  | VList _ => Raise TypeError
  end.

(** The branch on [field_type]. *)
Definition typed_value (field : Field) : Res AttrValue :=
  let field_type := f_type field in
  if is_choice_type field_type then Ok (of_opt_str (_resolve_option_text field))
  else if String.eqb field_type "LINEAR_SCALE" then
    match f_value field with
    | VScalar SNone => Ok ANone
    | raw_value => let? n := py_int raw_value in Ok (AInt n)
    end
  else Ok (of_opt_str (_normalize_value (f_value field))).

(** The outer loop [for attr_name, possible_keys in FORM_FIELD_MAP.items()]. *)
Fixpoint extract_loop (by_key : gmap string Field) (items : FieldMap)
    (result : ExtractedFormFields) : Res ExtractedFormFields :=
  match items with
  | [] => Ok result
  | (attr_name, possible_keys) :: rest =>
      match first_field by_key possible_keys with
      | None => extract_loop by_key rest result
      | Some field =>
          let? value := typed_value field in
          extract_loop by_key rest (setattr result attr_name (attr_value attr_name value))
      end
  end.

Definition extract_form_fields (fields : list Field) : Res ExtractedFormFields :=
  extract_loop (fields_by_key fields) FORM_FIELD_MAP ExtractedFormFields_default.

End WithInt.

End Parse.

(* ===================================================================== *)
(** * shared/phone.py : the phone normaliser *)
(* ===================================================================== *)

Module Phone.
Import Py.

Section WithPhonenumbers.

(** The [phonenumbers] package, on which [normalize_phone] is built:
    [parse] (where [None] stands for [NumberParseException]),
    [is_valid_number], and [format_number] with the E164 format. *)
Variable PhoneNumber : Type.
Variable parse : string -> string -> option PhoneNumber.
Variable is_valid_number : PhoneNumber -> bool.
Variable format_e164 : PhoneNumber -> string.

Definition normalize_phone (phone : string) (default_region : string) : option string :=
  if negb (nonempty phone) || negb (nonempty (strip phone)) then None
  else
    match parse (strip phone) default_region with
    | Some parsed =>
        if negb (is_valid_number parsed) then None
        else Some (format_e164 parsed)
    | None => None
    end.

Definition is_valid_phone (phone : string) (default_region : string) : bool :=
  match normalize_phone phone default_region with
  | Some _ => true
  | None => false
  end.

End WithPhonenumbers.

End Phone.

(* ===================================================================== *)
(** * config.py : the settings the core reads *)
(* ===================================================================== *)

Module Config.

Record Settings := {
  tally_signup_form_id : string;
  tally_payment_form_id : string;
  verify_tally_signature : bool;
  tally_signup_secret : string;
  tally_payment_secret : string;
  default_phone_region : string
}.

End Config.

(* ===================================================================== *)
(** * tally/verify.py : the signature verifier *)
(* ===================================================================== *)

Module Verify.
Import Py.

Definition bytes := list Byte.byte.

(** [s.encode("utf-8")] for code points below 256. *)
Definition encode_char (c : ascii) : bytes :=
  let n := code c in
  if (n <? 128)%N then [byte_of_ascii c]
  else [byte_of_ascii (ascii_of_N (192 + n / 64)); byte_of_ascii (ascii_of_N (128 + n mod 64))].

Fixpoint encode_utf8 (s : string) : bytes :=
  match s with
  | EmptyString => []
  | String c r => encode_char c ++ encode_utf8 r
  end.

(** [digest.hex()] *)
Fixpoint hexlify (b : bytes) : string :=
  match b with
  | [] => EmptyString
  | x :: r => hex2 (Byte.to_N x) +:+ hexlify r
  end.

Fixpoint is_ascii (s : string) : bool :=
  match s with
  | EmptyString => true
  | String c r => (code c <? 128)%N && is_ascii r
  end.

(** [hmac.compare_digest] on two [str] arguments: it raises [TypeError]
    unless both are ASCII. *)
Definition compare_digest (a b : string) : Res bool :=
  if is_ascii a && is_ascii b then Ok (String.eqb a b) else Raise TypeError.

Section WithHmac.

(** [hmac.new(key, msg, hashlib.sha256).digest()] *)
Variable hmac_sha256 : bytes -> bytes -> bytes.

Definition compute_hmac_sha256 (body : bytes) (secret : string) : string :=
  hexlify (hmac_sha256 (encode_utf8 secret) body).

Definition verify_tally_signature (settings : Config.Settings) (body : bytes)
    (signature_header : option string) (form_type : string)
  : Res (bool * option string) :=
  if negb (Config.verify_tally_signature settings) then Ok (true, None)
  else
    let continue (secret : string) :=
      if negb (nonempty secret) then
        Ok (false, Some ("Signature verification enabled but no secret configured for "
                           +:+ form_type +:+ " form"))
      else if negb (truthy signature_header) then
        Ok (false, Some "Missing tally-signature header")
      else
        let expected_signature := compute_hmac_sha256 body secret in
        let? same := compare_digest (default EmptyString signature_header) expected_signature in
        if negb same then Ok (false, Some "Invalid signature")
        else Ok (true, None)
    in
    if String.eqb form_type "signup" then continue (Config.tally_signup_secret settings)
    else if String.eqb form_type "payment" then continue (Config.tally_payment_secret settings)
    else Ok (false, Some ("Unknown form type: " +:+ form_type)).

End WithHmac.

End Verify.

(* ===================================================================== *)
(** * models.py : the three tables *)
(* ===================================================================== *)

Module Models.
Import Parse.

(** A row of [registrations]; the primary key is [registration_id].
    Timestamps are integers. *)
Record Registration := {
  registration_id : string;
  event_id : string;
  email : option string;
  phone_e164 : option string;
  full_name : option string;
  signup_payload : option Payload;
  signup_received_at : option Z;
  paid : bool;
  paid_at : option Z;
  payment_payload : option Payload;
  payment_received_at : option Z;
  payment_claimed_registration_id : option string;
  payment_claimed_phone_e164 : option string;
  payment_link_status : string;
  created_at : Z;
  updated_at : Z
}.

(** A row of [signups]; the autoincremented [id] is the row's position in
    the table. *)
Record Signup := {
  su_received_at : Z;
  su_first_name : AttrValue;
  su_phone : AttrValue;
  su_first_time : AttrValue;
  su_age : AttrValue;
  su_gender : AttrValue;
  su_country : AttrValue;
  su_background : AttrValue;
  su_creative_expression_score : AttrValue;
  su_social_anxiety_score : AttrValue;
  su_emotional_intuition_score : AttrValue;
  su_solitary_preference_score : AttrValue;
  su_interests_active_outdoors : AttrValue;
  su_interests_creativity : AttrValue;
  su_interests_intellectual : AttrValue;
  su_interests_food_social : AttrValue;
  su_interests_games : AttrValue;
  su_interests_mind_self : AttrValue;
  su_mbti : AttrValue;
  su_optional_note : AttrValue
}.

(** A row of [payments]. *)
Record Payment := {
  pay_arrived_at : Z;
  pay_phone : option string;
  pay_status : option string;
  pay_recognized : bool
}.

End Models.

(* ===================================================================== *)
(** * The durable store as one request sees it *)
(* ===================================================================== *)

Module Store.
Import Models.

(** The statements a request issues against the store, in order. *)
Inductive StoreOp :=
| OpGetRegistration (id : string)
| OpSelectByEventPhone (event phone : string)
| OpSelectSignupPhone (phone : string)
| OpAddRegistration (id : string)
| OpAddSignup
| OpAddPayment.

(** The contents of the three tables, and the statements issued so far.
    [registrations] is keyed by the primary key. *)
Record Session := {
  registrations : gmap string Registration;
  signups : list Signup;
  payments : list Payment;
  oplog : list StoreOp
}.

Definition empty_session : Session :=
  {| registrations := ∅; signups := []; payments := []; oplog := [] |}.

(** Code running against a session. *)
Definition M (A : Type) : Type := Session -> A * Session.

Definition ret {A} (a : A) : M A := fun s => (a, s).

Definition bind {A B} (m : M A) (k : A -> M B) : M B :=
  fun s => let (a, s') := m s in k a s'.

Definition log (op : StoreOp) : M unit :=
  fun s => (tt, {| registrations := registrations s; signups := signups s;
                   payments := payments s; oplog := oplog s ++ [op] |}).

Definition set_registrations (f : gmap string Registration -> gmap string Registration)
  : M unit :=
  fun s => (tt, {| registrations := f (registrations s); signups := signups s;
                   payments := payments s; oplog := oplog s |}).

End Store.

Notation "'do' x '<-' m ';' k" := (Store.bind m (fun x => k))
  (at level 10, x name, m at level 100, k at level 200).
Notation "'do_' m ';' k" := (Store.bind m (fun _ => k))
  (at level 10, m at level 100, k at level 200).

Module Db.
Import Models Store.

(** [session.get(Registration, id)] *)
Definition session_get (id : string) : M (option Registration) :=
  do_ log (OpGetRegistration id);
  fun s => (registrations s !! id, s).

(** [session.add(registration)] for a new row. *)
Definition session_add_registration (r : Registration) : M unit :=
  do_ log (OpAddRegistration (registration_id r));
  set_registrations (fun m => <[registration_id r := r]> m).

(** Assignments to the attributes of a loaded row: the row with the object's
    primary key is rewritten. *)
Definition update_registration (obj : Registration) (f : Registration -> Registration)
  : M unit :=
  set_registrations (fun m => alter f (registration_id obj) m).

(** [select(Registration).where(event_id == e, phone_e164 == p)] *)
Definition select_by_event_phone (event phone : string) : M (list Registration) :=
  do_ log (OpSelectByEventPhone event phone);
  fun s => (filter (fun r => event_id r = event ∧ phone_e164 r = Some phone)
              (map_to_list (registrations s)).*2, s).

(** [select(Signup).where(Signup.phone == phone).limit(1)], tested for a row. *)
Definition signup_phone_exists (phone : string) : M bool :=
  do_ log (OpSelectSignupPhone phone);
  fun s => (existsb (fun su => match su_phone su with
                                | Parse.AStr p => String.eqb p phone
                                | _ => false
                                end) (signups s), s).

Definition session_add_signup (row : Signup) : M unit :=
  do_ log OpAddSignup;
  fun s => (tt, {| registrations := registrations s; signups := signups s ++ [row];
                   payments := payments s; oplog := oplog s |}).

Definition session_add_payment (row : Payment) : M unit :=
  do_ log OpAddPayment;
  fun s => (tt, {| registrations := registrations s; signups := signups s;
                   payments := payments s ++ [row]; oplog := oplog s |}).

End Db.

(* ===================================================================== *)
(** * tally/parse.py : the parsed records *)
(* ===================================================================== *)

Module Parsed.
Import Parse.

Record ParsedSignupData := {
  ps_form_id : string;
  ps_submission_id : option string;
  ps_event_id : option string;
  ps_registration_id : option string;
  ps_phone_raw : option string;
  ps_phone_e164 : option string;
  ps_email : option string;
  ps_full_name : option string;
  ps_raw_payload : Payload;
  ps_form_fields : option ExtractedFormFields
}.

Record ParsedPaymentData := {
  pp_form_id : string;
  pp_submission_id : option string;
  pp_event_id : option string;
  pp_registration_id : option string;
  pp_phone_raw : option string;
  pp_phone_e164 : option string;
  pp_email : option string;
  pp_raw_payload : Payload
}.

End Parsed.

(** What a request reads from outside the store: the application clock
    ([datetime.now]), the store's clock (the [func.now()] column defaults) and
    the hexadecimal form of the n-th [uuid.uuid4()] it draws. *)
Record Env := {
  now : Z;
  db_now : Z;
  uuid4_hex : nat -> string
}.

(* ===================================================================== *)
(** * services/signup.py *)
(* ===================================================================== *)

Module SignupService.
Import Py Parse Parsed Models Store Db.

Record SignupResult := {
  sr_success : bool;
  sr_registration_id : option string;
  sr_is_new : bool;
  sr_error_message : option string
}.

(** [Signup()] with no attribute set. *)
Definition Signup_blank (received_at : Z) : Signup :=
  {| su_received_at := received_at;
     su_first_name := ANone; su_phone := ANone; su_first_time := ANone;
     su_age := ANone; su_gender := ANone; su_country := ANone;
     su_background := ANone;
     su_creative_expression_score := ANone; su_social_anxiety_score := ANone;
     su_emotional_intuition_score := ANone; su_solitary_preference_score := ANone;
     su_interests_active_outdoors := ANone; su_interests_creativity := ANone;
     su_interests_intellectual := ANone; su_interests_food_social := ANone;
     su_interests_games := ANone; su_interests_mind_self := ANone;
     su_mbti := ANone; su_optional_note := ANone |}.

Definition _log_submission (env : Env) (parsed : ParsedSignupData) : M Signup :=
  let submission :=
    match ps_form_fields parsed with
    | Some ff =>
        {| su_received_at := db_now env;
           su_first_name := getattr ff "first_name";
           su_phone := getattr ff "phone";
           su_first_time := getattr ff "first_time";
           su_age := getattr ff "age";
           su_gender := getattr ff "gender";
           su_country := getattr ff "country";
           su_background := getattr ff "background";
           su_creative_expression_score := getattr ff "creative_expression_score";
           su_social_anxiety_score := getattr ff "social_anxiety_score";
           su_emotional_intuition_score := getattr ff "emotional_intuition_score";
           su_solitary_preference_score := getattr ff "solitary_preference_score";
           su_interests_active_outdoors := getattr ff "interests_active_outdoors";
           su_interests_creativity := getattr ff "interests_creativity";
           su_interests_intellectual := getattr ff "interests_intellectual";
           su_interests_food_social := getattr ff "interests_food_social";
           su_interests_games := getattr ff "interests_games";
           su_interests_mind_self := getattr ff "interests_mind_self";
           su_mbti := getattr ff "mbti";
           su_optional_note := getattr ff "optional_note" |}
    | None => Signup_blank (db_now env)
    end in
  do_ session_add_signup submission;
  ret submission.

(** The assignments of the branch [if existing_registration]. *)
Definition signup_update (parsed : ParsedSignupData) (event : string) (t : Z)
    (r : Registration) : Registration :=
  {| registration_id := registration_id r;
     event_id := event;
     email := ps_email parsed;
     phone_e164 := ps_phone_e164 parsed;
     full_name := ps_full_name parsed;
     signup_payload := Some (ps_raw_payload parsed);
     signup_received_at := Some t;
     paid := paid r;
     paid_at := paid_at r;
     payment_payload := payment_payload r;
     payment_received_at := payment_received_at r;
     payment_claimed_registration_id := payment_claimed_registration_id r;
     payment_claimed_phone_e164 := payment_claimed_phone_e164 r;
     payment_link_status := payment_link_status r;
     created_at := created_at r;
     updated_at := t |}.

(** The row built in the branch [else]; the columns the constructor leaves
    out take their defaults when the row is inserted. *)
Definition signup_create (env : Env) (parsed : ParsedSignupData) (id event : string)
  : Registration :=
  {| registration_id := id;
     event_id := event;
     email := ps_email parsed;
     phone_e164 := ps_phone_e164 parsed;
     full_name := ps_full_name parsed;
     signup_payload := Some (ps_raw_payload parsed);
     signup_received_at := Some (now env);
     paid := false;
     paid_at := None;
     payment_payload := None;
     payment_received_at := None;
     payment_claimed_registration_id := None;
     payment_claimed_phone_e164 := None;
     payment_link_status := "unpaid";
     created_at := db_now env;
     updated_at := db_now env |}.

Definition generated_registration_id (env : Env) : string :=
  "REG-" +:+ upper (take 12 (uuid4_hex env 0)).

Definition generated_event_id (env : Env) (drawn : nat) : string :=
  "EVT-" +:+ upper (take 8 (uuid4_hex env drawn)).

Definition process_signup (env : Env) (parsed : ParsedSignupData) : M SignupResult :=
  let registration_id :=
    if negb (truthy (ps_registration_id parsed)) then generated_registration_id env
    else default EmptyString (ps_registration_id parsed) in
  let drawn := if negb (truthy (ps_registration_id parsed)) then 1%nat else 0%nat in
  let event_id :=
    if negb (truthy (ps_event_id parsed)) then generated_event_id env drawn
    else default EmptyString (ps_event_id parsed) in
  do existing_registration <- session_get registration_id;
  let is_new := match existing_registration with None => true | Some _ => false end in
  do_ match existing_registration with
      | Some existing =>
          update_registration existing (signup_update parsed event_id (now env))
      | None =>
          session_add_registration (signup_create env parsed registration_id event_id)
      end;
  do_ _log_submission env parsed;
  ret {| sr_success := true;
         sr_registration_id := Some registration_id;
         sr_is_new := is_new;
         sr_error_message := None |}.

End SignupService.

(* ===================================================================== *)
(** * services/payment.py *)
(* ===================================================================== *)

Module PaymentService.
Import Py Parse Parsed Models Store Db.

Inductive PaymentLinkStatus :=
| MATCHED_BY_REGISTRATION_ID
| MATCHED_BY_PHONE
| ORPHAN_PAYMENT
| AMBIGUOUS_PHONE_MATCH.

(** [status.value] *)
Definition status_value (status : PaymentLinkStatus) : string :=
  match status with
  | MATCHED_BY_REGISTRATION_ID => "matched_by_registration_id"
  | MATCHED_BY_PHONE => "matched_by_phone"
  | ORPHAN_PAYMENT => "orphan_payment"
  | AMBIGUOUS_PHONE_MATCH => "ambiguous_phone_match"
  end.

Record PaymentResult := {
  success : bool;
  pr_registration_id : option string;
  link_status : option PaymentLinkStatus;
  is_emergency : bool;
  error_message : option string
}.

Definition _mark_paid (parsed : ParsedPaymentData) (t : Z) (status : PaymentLinkStatus)
    (registration : Registration) : Registration :=
  {| registration_id := registration_id registration;
     event_id := event_id registration;
     email := email registration;
     phone_e164 := phone_e164 registration;
     full_name := full_name registration;
     signup_payload := signup_payload registration;
     signup_received_at := signup_received_at registration;
     paid := true;
     paid_at := Some t;
     payment_payload := Some (pp_raw_payload parsed);
     payment_received_at := Some t;
     payment_claimed_registration_id := pp_registration_id parsed;
     payment_claimed_phone_e164 := pp_phone_e164 parsed;
     payment_link_status := status_value status;
     created_at := created_at registration;
     updated_at := t |}.

Definition _find_by_event_and_phone (event phone : string) : M (list Registration) :=
  select_by_event_phone event phone.

Definition _check_phone_in_signups (phone : string) : M bool :=
  signup_phone_exists phone.

(** The first field whose label contains "All done". *)
Fixpoint all_done_field (l : list Field) : option Field :=
  match l with
  | [] => None
  | field :: rest =>
      if contains "All done" (f_label field) then Some field else all_done_field rest
  end.

(** The [status] column of the audit row. *)
Definition audit_status (payload : Payload) : option string :=
  match all_done_field (fields payload) with
  | None => None
  | Some field =>
      let value := f_value field in
      match value, f_options field with
      | VList l, (_ :: _) as options => Some (join ", " (map (resolve_one options) l))
      | _, _ => if value_truthy value then Some (str_value value) else None
      end
  end.

Definition _log_submission (env : Env) (parsed : ParsedPaymentData) : M Payment :=
  let phone := or_else (pp_phone_e164 parsed) (pp_phone_raw parsed) in
  do recognized <-
    (if truthy phone then _check_phone_in_signups (default EmptyString phone)
     else ret false);
  let status := audit_status (pp_raw_payload parsed) in
  let submission :=
    {| pay_arrived_at := db_now env;
       pay_phone := phone;
       pay_status := status;
       pay_recognized := recognized |} in
  do_ session_add_payment submission;
  ret submission.

(** The final block of [process_payment]. *)
Definition orphan (env : Env) (parsed : ParsedPaymentData) : M PaymentResult :=
  do_ _log_submission env parsed;
  ret {| success := true;
         pr_registration_id := None;
         link_status := Some ORPHAN_PAYMENT;
         is_emergency := true;
         error_message := Some "No matching registration found for payment" |}.

(** Step 2 of [process_payment] and what follows it. *)
Definition match_by_phone (env : Env) (parsed : ParsedPaymentData) : M PaymentResult :=
  if truthy (pp_event_id parsed) && truthy (pp_phone_e164 parsed) then
    do matches <- _find_by_event_and_phone (default EmptyString (pp_event_id parsed))
                    (default EmptyString (pp_phone_e164 parsed));
    match matches with
    | [registration] =>
        do_ update_registration registration (_mark_paid parsed (now env) MATCHED_BY_PHONE);
        do_ _log_submission env parsed;
        ret {| success := true;
               pr_registration_id := Some (registration_id registration);
               link_status := Some MATCHED_BY_PHONE;
               is_emergency := false;
               error_message := None |}
    | _ :: _ :: _ =>
        do_ _log_submission env parsed;
        ret {| success := true;
               pr_registration_id := None;
               link_status := Some AMBIGUOUS_PHONE_MATCH;
               is_emergency := true;
               error_message :=
                 Some ("Multiple registrations found for phone "
                         +:+ default "None" (pp_phone_e164 parsed)) |}
    | [] => orphan env parsed
    end
  else orphan env parsed.

Definition process_payment (env : Env) (parsed : ParsedPaymentData) : M PaymentResult :=
  if negb (truthy (pp_registration_id parsed)) && negb (truthy (pp_phone_e164 parsed)) then
    ret {| success := false;
           pr_registration_id := None;
           link_status := None;
           is_emergency := true;
           error_message := Some "Payment has neither registration_id nor valid phone number" |}
  else if truthy (pp_registration_id parsed) then
    do registration <- session_get (default EmptyString (pp_registration_id parsed));
    match registration with
    | Some registration =>
        do_ update_registration registration
              (_mark_paid parsed (now env) MATCHED_BY_REGISTRATION_ID);
        do_ _log_submission env parsed;
        ret {| success := true;
               pr_registration_id := Some (registration_id registration);
               link_status := Some MATCHED_BY_REGISTRATION_ID;
               is_emergency := false;
               error_message := None |}
    | None => match_by_phone env parsed
    end
  else match_by_phone env parsed.

End PaymentService.


(* ===================================================================== *)
(** * tally/parse.py : the payload parser *)
(* ===================================================================== *)

Module ParsePayload.
Import Py Parse Parsed.

Definition determine_form_type (settings : Config.Settings) (form_id : string)
  : option string :=
  if String.eqb form_id (Config.tally_signup_form_id settings) then Some "signup"
  else if String.eqb form_id (Config.tally_payment_form_id settings) then Some "payment"
  else None.

Section WithLibraries.

(** The [phonenumbers] package and the built-in [int], as in [Phone] and
    [Parse]. *)
Variable PhoneNumber : Type.
Variable parse : string -> string -> option PhoneNumber.
Variable is_valid_number : PhoneNumber -> bool.
Variable format_e164 : PhoneNumber -> string.
Variable int_of_str : string -> option Z.

Variable settings : Config.Settings.

(** The result is a [ParsedSignupData] for the form type "signup" and a
    [ParsedPaymentData] for any other. *)
Definition parse_tally_payload (payload : Payload) (form_type : string)
  : Res (ParsedSignupData + ParsedPaymentData) :=
  let form_id := formId payload in
  let submission_id := or_else (submissionId payload) (responseId payload) in
  let fields := fields payload in
  let field_map :=
    if String.eqb form_type "signup" then SIGNUP_FIELD_MAP else PAYMENT_FIELD_MAP in
  let event_id := extract_field_value fields "event_id" field_map in
  let registration_id := extract_field_value fields "registration_id" field_map in
  let phone_raw := extract_field_value fields "phone" field_map in
  let email := extract_field_value fields "email" field_map in
  let phone_e164 :=
    if truthy phone_raw then
      Phone.normalize_phone PhoneNumber parse is_valid_number format_e164
        (default EmptyString phone_raw) (Config.default_phone_region settings)
    else None in
  if String.eqb form_type "signup" then
    let full_name := extract_field_value fields "full_name" field_map in
    let? form_fields := extract_form_fields int_of_str fields in
    Ok (inl {| ps_form_id := form_id;
               ps_submission_id := submission_id;
               ps_event_id := event_id;
               ps_registration_id := registration_id;
               ps_phone_raw := phone_raw;
               ps_phone_e164 := phone_e164;
               ps_email := email;
               ps_full_name := full_name;
               ps_raw_payload := payload;
               ps_form_fields := Some form_fields |})
  else
    Ok (inr {| pp_form_id := form_id;
               pp_submission_id := submission_id;
               pp_event_id := event_id;
               pp_registration_id := registration_id;
               pp_phone_raw := phone_raw;
               pp_phone_e164 := phone_e164;
               pp_email := email;
               pp_raw_payload := payload |}).

End WithLibraries.

End ParsePayload.

(* ===================================================================== *)
(** * shared/types.py : the validated phone number *)
(* ===================================================================== *)

Module Types.
Import Py.

Section WithPhonenumbers.

Variable PhoneNumber : Type.
Variable parse : string -> string -> option PhoneNumber.
Variable is_valid_number : PhoneNumber -> bool.
Variable format_e164 : PhoneNumber -> string.

(** [PhoneNumber._validate]; [normalize_phone] is called with its default
    region "US". *)
Definition _validate (v : string) : Res string :=
  match Phone.normalize_phone PhoneNumber parse is_valid_number format_e164 v "US" with
  | None => Raise ValueError
  | Some normalized => Ok normalized
  end.

End WithPhonenumbers.

End Types.

(* ===================================================================== *)
(** * main.py : the webhook endpoint *)
(* ===================================================================== *)

Module Main.
Import Py Parse Parsed Models Store Db.

Record WebhookResponse := {
  wr_status : string;
  wr_form_type : option string;
  wr_registration_id : option string;
  wr_link_status : option string;
  wr_is_emergency : bool;
  wr_message : option string
}.

(** How a request ends: the 201 response, an [HTTPException], or an
    exception nothing handles. *)
Inductive Outcome :=
| Created (response : WebhookResponse)
| HTTPException (status_code : Z) (detail : option string)
| Unhandled (e : Exc).

(** [a or b] with a string default. *)
Definition or_default (a : option string) (b : string) : string :=
  if truthy a then default EmptyString a else b.

Definition _handle_signup (env : Env) (parsed : ParsedSignupData) : M Outcome :=
  do result <- SignupService.process_signup env parsed;
  if negb (SignupService.sr_success result) then
    ret (HTTPException 400
           (Some (or_default (SignupService.sr_error_message result)
                    "Failed to process signup")))
  else
    ret (Created {| wr_status := "received";
                    wr_form_type := Some "signup";
                    wr_registration_id := SignupService.sr_registration_id result;
                    wr_link_status := None;
                    wr_is_emergency := false;
                    wr_message := Some (if SignupService.sr_is_new result
                                        then "created" else "updated") |}).

Definition _handle_payment (env : Env) (parsed : ParsedPaymentData) : M Outcome :=
  do result <- PaymentService.process_payment env parsed;
  if negb (PaymentService.success result) then
    ret (HTTPException 400
           (Some (or_default (PaymentService.error_message result)
                    "Failed to process payment")))
  else
    ret (Created {| wr_status := "received";
                    wr_form_type := Some "payment";
                    wr_registration_id := PaymentService.pr_registration_id result;
                    wr_link_status :=
                      match PaymentService.link_status result with
                      | Some status => Some (PaymentService.status_value status)
                      | None => None
                      end;
                    wr_is_emergency := PaymentService.is_emergency result;
                    wr_message :=
                      if PaymentService.is_emergency result
                      then PaymentService.error_message result
                      else Some "paid" |}).

Section WithLibraries.

Variable PhoneNumber : Type.
Variable parse : string -> string -> option PhoneNumber.
Variable is_valid_number : PhoneNumber -> bool.
Variable format_e164 : PhoneNumber -> string.
Variable int_of_str : string -> option Z.
Variable hmac_sha256 : Verify.bytes -> Verify.bytes -> Verify.bytes.

(** [json.loads] on a request body; [None] stands for [JSONDecodeError].
    The decoded document is taken to be an object of the shape of
    [Payload]. *)
Variable json_loads : Verify.bytes -> option Payload.

Variable settings : Config.Settings.

(** The endpoint. The body hash it computes first is handed to the two
    services, which never read it. *)
Definition receive_tally_webhook (env : Env) (body : Verify.bytes)
    (signature_header : option string) : M Outcome :=
  match json_loads body with
  | None => ret (HTTPException 400 (Some "Invalid JSON payload"))
  | Some payload =>
      let form_id := formId payload in
      if negb (nonempty form_id) then
        ret (HTTPException 400 (Some "Missing formId in payload"))
      else
        match ParsePayload.determine_form_type settings form_id with
        | None => ret (HTTPException 400 (Some ("Unknown form_id: " +:+ form_id)))
        | Some form_type =>
            match Verify.verify_tally_signature hmac_sha256 settings body
                    signature_header form_type with
            | Raise e => ret (Unhandled e)
            | Ok (is_valid, error) =>
                if negb is_valid then ret (HTTPException 401 error)
                else
                  match ParsePayload.parse_tally_payload PhoneNumber parse
                          is_valid_number format_e164 int_of_str settings
                          payload form_type with
                  | Raise e => ret (Unhandled e)
                  | Ok (inl parsed) => _handle_signup env parsed
                  | Ok (inr parsed) => _handle_payment env parsed
                  end
            end
        end
  end.

End WithLibraries.

(** [db.get_session] around an endpoint: the unit of work is committed when
    the endpoint returns and rolled back when it raises. *)
Definition get_session (endpoint : M Outcome) : M Outcome :=
  fun s =>
    let (outcome, s') := endpoint s in
    match outcome with
    | Created _ => (outcome, s')
    | _ => (outcome, {| registrations := registrations s; signups := signups s;
                        payments := payments s; oplog := oplog s' |})
    end.

End Main.
(* ===================================================================== *)
(** * Specification-side definitions and the inputs of the examples *)
(* ===================================================================== *)

Import Py Parse Parsed Models Store Db.


(** The value the key (or label) index holds for [k], read off the field
    list: the value of the last field whose non-empty key (label) is [k] up
    to case. *)
Fixpoint last_value (proj : Field -> string) (k : string) (l : list Field) : option Value :=
  match l with
  | [] => None
  | f :: rest =>
      match last_value proj k rest with
      | Some v => Some v
      | None =>
          if nonempty (proj f) && String.eqb (lower (proj f)) k
          then Some (f_value f) else None
      end
  end.

(** A submission whose first-name question carries an unknown key and the
    label listed in the mapping table. *)
Definition label_only_field : Field :=
  {| f_key := "question_XXXXXX";
     f_label := "What's your first name?";
     f_value := VScalar (SStr "Ann");
     f_type := "INPUT_TEXT";
     f_options := [] |}.


(** A linear-scale answer is safe for [int] when it is absent, an integer or
    a boolean. *)
Definition scale_safe (f : Field) : bool :=
  negb (String.eqb (f_type f) "LINEAR_SCALE") ||
  match f_value f with
  | VScalar (SStr _) | VList _ => false
  | VScalar _ => true
  end.

(** What a score attribute may hold. *)
Definition int_or_none (v : AttrValue) : Prop :=
  match v with
  | AStr _ => False
  | _ => True
  end.

(** A submission whose creative-expression scale carries a list. *)
Definition scale_list_field : Field :=
  {| f_key := "question_2NW67g";
     f_label := "creative expression";
     f_value := VList [SStr "3"];
     f_type := "LINEAR_SCALE";
     f_options := [] |}.

(** The same question answered with text that is not a number. *)
Definition scale_text_field : Field :=
  {| f_key := "question_2NW67g";
     f_label := "creative expression";
     f_value := VScalar (SStr "abc");
     f_type := "LINEAR_SCALE";
     f_options := [] |}.

(** ** Phone normaliser *)

Fixpoint all_space (s : string) : bool :=
  match s with
  | EmptyString => true
  | String c r => isspace c && all_space r
  end.

Definition isdigit (c : ascii) : bool := between 48 57 (code c).

Fixpoint all_digits (s : string) : bool :=
  match s with
  | EmptyString => true
  | String c r => isdigit c && all_digits r
  end.

(** A small instance of the [phonenumbers] interface that reads canonical
    numbers only: a number is its digit string, valid when it has between
    seven and fifteen digits. *)
Module CanonicalOnly.

Definition parse (s region : string) : option string :=
  match s with
  | String "+"%char ds => if all_digits ds && nonempty ds then Some ds else None
  | _ => None
  end.

Definition is_valid_number (ds : string) : bool :=
  all_digits ds && (7 <=? String.length ds)%nat && (String.length ds <=? 15)%nat.

Definition format_e164 (ds : string) : string := String "+"%char ds.

End CanonicalOnly.

(** ** Signature verifier *)

(** The secret configured for a form kind. *)
Definition form_secret (settings : Config.Settings) (form_type : string) : option string :=
  if String.eqb form_type "signup" then Some (Config.tally_signup_secret settings)
  else if String.eqb form_type "payment" then Some (Config.tally_payment_secret settings)
  else None.

(** Verification switched on, both secrets configured. *)
Definition settings_verifying : Config.Settings :=
  {| Config.tally_signup_form_id := "form-signup";
     Config.tally_payment_form_id := "form-payment";
     Config.verify_tally_signature := true;
     Config.tally_signup_secret := "signup-secret";
     Config.tally_payment_secret := "payment-secret";
     Config.default_phone_region := "NL" |}.

(** A header value holding the single character of code 233. *)
Definition latin1_header : string := String (ascii_of_nat 233) EmptyString.

(** ** Reconcilers *)

Import SignupService PaymentService.

(** The table is keyed by the primary key of its rows. *)
Definition store_wf (s : Session) : Prop :=
  forall k r, registrations s !! k = Some r -> registration_id r = k.

(** The invariant on one registration. *)
Definition paid_implies_matched (r : Registration) : Prop :=
  paid r = true ->
  payment_link_status r = "matched_by_registration_id"
  \/ payment_link_status r = "matched_by_phone".

(** The payment-side columns of a registration. *)
Definition payment_side (r : Registration) :=
  (paid r, paid_at r, payment_payload r, payment_received_at r,
   payment_claimed_registration_id r, payment_claimed_phone_e164 r,
   payment_link_status r).

(** The phone under which a payment is audited. *)
Definition audit_phone (parsed : ParsedPaymentData) : option string :=
  or_else (pp_phone_e164 parsed) (pp_phone_raw parsed).

(** The audit row [_log_submission] writes for a payment. *)
Definition audit_row (env : Env) (parsed : ParsedPaymentData) (s : Session) : Payment :=
  {| pay_arrived_at := db_now env;
     pay_phone := audit_phone parsed;
     pay_status := audit_status (pp_raw_payload parsed);
     pay_recognized :=
       if truthy (audit_phone parsed)
       then existsb (fun su => match su_phone su with
                               | AStr p => String.eqb p (default EmptyString (audit_phone parsed))
                               | _ => false
                               end) (signups s)
       else false |}.

(** The statements [_log_submission] issues for a payment. *)
Definition audit_ops (parsed : ParsedPaymentData) : list StoreOp :=
  if truthy (audit_phone parsed)
  then [OpSelectSignupPhone (default EmptyString (audit_phone parsed)); OpAddPayment]
  else [OpAddPayment].

(** The registrations a phone query returns. *)
Definition phone_matches (event phone : string) (s : Session) : list Registration :=
  filter (fun r => event_id r = event /\ phone_e164 r = Some phone)
    (map_to_list (registrations s)).*2.

(** The primary-key lookup of a payment finds nothing. *)
Definition direct_miss (parsed : ParsedPaymentData) (s : Session) : Prop :=
  truthy (pp_registration_id parsed) = false
  \/ registrations s !! default EmptyString (pp_registration_id parsed) = None.

(** The statements issued before the audit when the phone query runs. *)
Definition phone_branch_ops (parsed : ParsedPaymentData) : list StoreOp :=
  (if truthy (pp_registration_id parsed)
   then [OpGetRegistration (default EmptyString (pp_registration_id parsed))]
   else [])
  ++ [OpSelectByEventPhone (default EmptyString (pp_event_id parsed))
        (default EmptyString (pp_phone_e164 parsed))].

(** One request: a signup or a payment, under some environment. *)
Inductive step : Session -> Session -> Prop :=
| step_signup env parsed s : step s (snd (process_signup env parsed s))
| step_payment env parsed s : step s (snd (process_payment env parsed s)).

(** The sessions reachable from [s0] by any sequence of requests. *)
Inductive reachable_from (s0 : Session) : Session -> Prop :=
| reach_start : reachable_from s0 s0
| reach_step s s' : reachable_from s0 s -> step s s' -> reachable_from s0 s'.

(** The result of the rejected payment. *)
Definition rejected_result : PaymentResult :=
  {| success := false;
     pr_registration_id := None;
     link_status := None;
     is_emergency := true;
     error_message := Some "Payment has neither registration_id nor valid phone number" |}.

(** The result of an orphan payment. *)
Definition orphan_result : PaymentResult :=
  {| success := true;
     pr_registration_id := None;
     link_status := Some ORPHAN_PAYMENT;
     is_emergency := true;
     error_message := Some "No matching registration found for payment" |}.

(** ** Inputs of the examples *)

Definition env_a : Env :=
  {| now := 100; db_now := 101;
     uuid4_hex := fun n => match n with
                           | O => "0123456789abcdef0123456789abcdef"
                           | _ => "fedcba9876543210fedcba9876543210"
                           end |}.

Definition env_b : Env :=
  {| now := 200; db_now := 201;
     uuid4_hex := fun n => match n with
                           | O => "a1b2c3d4e5f60718293a4b5c6d7e8f90"
                           | _ => "0f1e2d3c4b5a69788796a5b4c3d2e1f0"
                           end |}.

Definition blank_payload : Payload :=
  {| formId := "form-signup"; submissionId := Some "sub-1"; responseId := None;
     fields := [] |}.

Definition signup_of (id : option string) (name : string) : ParsedSignupData :=
  {| ps_form_id := "form-signup";
     ps_submission_id := Some "sub-1";
     ps_event_id := Some "EVT-1";
     ps_registration_id := id;
     ps_phone_raw := Some "+1 415 555 1234";
     ps_phone_e164 := Some "+14155551234";
     ps_email := None;
     ps_full_name := Some name;
     ps_raw_payload := blank_payload;
     ps_form_fields := None |}.

Definition signup_ann : ParsedSignupData := signup_of (Some "REG-ANN") "Ann".
Definition signup_bob : ParsedSignupData := signup_of (Some "REG-BOB") "Bob".
Definition signup_noid : ParsedSignupData := signup_of None "Cy".

Definition payment_of (id event phone : option string) : ParsedPaymentData :=
  {| pp_form_id := "form-payment";
     pp_submission_id := Some "sub-2";
     pp_event_id := event;
     pp_registration_id := id;
     pp_phone_raw := phone;
     pp_phone_e164 := phone;
     pp_email := None;
     pp_raw_payload := blank_payload |}.

Definition pay_by_id : ParsedPaymentData :=
  payment_of (Some "REG-ANN") None None.
Definition pay_by_phone : ParsedPaymentData :=
  payment_of None (Some "EVT-1") (Some "+14155551234").
Definition pay_unknown_id : ParsedPaymentData :=
  payment_of (Some "REG-ZZZ") (Some "EVT-1") (Some "+14155551234").
Definition pay_no_identifier : ParsedPaymentData :=
  payment_of None (Some "EVT-1") None.

(** Ann has signed up. *)
Definition s_ann : Session := snd (process_signup env_a signup_ann empty_session).

(** Ann and Bob have signed up for the same event with the same phone. *)
Definition s_ann_bob : Session := snd (process_signup env_a signup_bob s_ann).

(** Ann has signed up and paid. *)
Definition s_ann_paid : Session := snd (process_payment env_b pay_by_id s_ann).

(** Ann's row after her signup. *)
Definition ann_row : Registration :=
  signup_create env_a signup_ann "REG-ANN" "EVT-1".

(** Ann's signup applied twice. *)
Definition ann_first := process_signup env_a signup_ann empty_session.
Definition ann_second := process_signup env_b signup_ann (snd ann_first).

(** A signup without registration id applied twice. *)
Definition noid_first := process_signup env_a signup_noid empty_session.
Definition noid_second := process_signup env_b signup_noid (snd noid_first).

(* ===================================================================== *)
(** * Further definitions for the properties of the remaining code *)
(* ===================================================================== *)

(** A submitted field with its key and label in lower case. *)
Definition field_lower (f : Field) : Field :=
  {| f_key := lower (f_key f);
     f_label := lower (f_label f);
     f_value := f_value f;
     f_type := f_type f;
     f_options := f_options f |}.

(** A field map with every candidate in lower case. *)
Definition field_map_lower (field_map : FieldMap) : FieldMap :=
  map (fun item => (fst item, map lower (snd item))) field_map.

(** What a non-score attribute may hold. *)
Definition str_or_none (v : AttrValue) : Prop :=
  match v with
  | AInt _ => False
  | _ => True
  end.

(** The string is empty or begins with a character that is not whitespace. *)
Definition starts_nonspace (s : string) : Prop :=
  match s with
  | EmptyString => True
  | String c _ => isspace c = false
  end.

(** A first-name answer and an integer scale answer, keyed as in the table. *)
Definition profile_fields : list Field :=
  [ {| f_key := "question_EQROMA"; f_label := "What's your first name?";
       f_value := VScalar (SInt 7); f_type := "INPUT_NUMBER"; f_options := [] |};
    {| f_key := "question_2NW67g"; f_label := "creative expression";
       f_value := VScalar (SInt 4); f_type := "LINEAR_SCALE"; f_options := [] |} ].

(** A keyed-hash stand-in: the key followed by the message. *)
Definition concat_mac (key msg : Verify.bytes) : Verify.bytes := key ++ msg.

(** The signup-side columns of a registration, with its key and creation
    time. *)
Definition signup_side (r : Registration) :=
  (registration_id r, event_id r, email r, phone_e164 r, full_name r,
   signup_payload r, signup_received_at r, created_at r).

(** Every registration has a non-empty registration id and event id. *)
Definition ids_present (s : Session) : Prop :=
  forall k r, registrations s !! k = Some r ->
    registration_id r <> EmptyString /\ event_id r <> EmptyString.

(** Ann signs up again after having paid. *)
Definition s_ann_paid_resigned : Session :=
  snd (process_signup env_b signup_ann s_ann_paid).

(** The results [process_payment] can return once a payment is accepted. *)
Definition accepted_result (res : PaymentResult) : Prop :=
  (exists id st,
     (st = MATCHED_BY_REGISTRATION_ID \/ st = MATCHED_BY_PHONE)
     /\ res = {| success := true; pr_registration_id := Some id;
                 link_status := Some st; is_emergency := false;
                 error_message := None |})
  \/ res = orphan_result
  \/ (exists p,
        res = {| success := true; pr_registration_id := None;
                 link_status := Some AMBIGUOUS_PHONE_MATCH; is_emergency := true;
                 error_message := Some ("Multiple registrations found for phone " +:+ p) |}).

(** A payment payload with an "All done?" question answered by option ids. *)
Definition all_done_payload : Payload :=
  {| formId := "form-payment"; submissionId := None; responseId := Some "resp-9";
     fields :=
       [ {| f_key := "question_a"; f_label := "Your phone";
            f_value := VScalar (SStr "0612345678"); f_type := "INPUT_PHONE_NUMBER";
            f_options := [] |};
         {| f_key := "question_b"; f_label := "All done?";
            f_value := VList [SStr "opt-1"; SStr "opt-9"]; f_type := "CHECKBOXES";
            f_options := [ {| opt_id := SStr "opt-1"; opt_text := "Paid by card" |} ] |};
         {| f_key := "question_c"; f_label := "All done (again)";
            f_value := VScalar (SStr "ignored"); f_type := "INPUT_TEXT";
            f_options := [] |} ] |}.

(** A signup whose profile record holds a phone answer. *)
Definition signup_with_profile : ParsedSignupData :=
  {| ps_form_id := "form-signup";
     ps_submission_id := Some "sub-7";
     ps_event_id := Some "EVT-1";
     ps_registration_id := Some "REG-DEE";
     ps_phone_raw := Some "+14155550000";
     ps_phone_e164 := Some "+14155550000";
     ps_email := None;
     ps_full_name := Some "Dee";
     ps_raw_payload := blank_payload;
     ps_form_fields := Some (setattr ExtractedFormFields_default "phone" (AStr "+14155550000")) |}.

Definition pay_dee : ParsedPaymentData :=
  payment_of (Some "REG-DEE") None (Some "+14155550000").

(** Dee has signed up, then Ann. *)
Definition s_dee : Session := snd (process_signup env_a signup_with_profile empty_session).
Definition s_dee_ann : Session := snd (process_signup env_b signup_ann s_dee).

(** A payload with its field list replaced. *)
Definition with_fields (payload : Payload) (l : list Field) : Payload :=
  {| formId := formId payload; submissionId := submissionId payload;
     responseId := responseId payload; fields := l |}.

(** A payment payload whose only identifier is a phone answer that is not a
    phone number. *)
Definition bad_phone_payload : Payload :=
  {| formId := "form-payment"; submissionId := Some "sub-3"; responseId := None;
     fields :=
       [ {| f_key := "question_p"; f_label := "Phone Number";
            f_value := VScalar (SStr "call me"); f_type := "INPUT_PHONE_NUMBER";
            f_options := [] |} ] |}.

(** Settings with verification off and the two form ids configured. *)
Definition settings_open : Config.Settings :=
  {| Config.tally_signup_form_id := "form-signup";
     Config.tally_payment_form_id := "form-payment";
     Config.verify_tally_signature := false;
     Config.tally_signup_secret := EmptyString;
     Config.tally_payment_secret := EmptyString;
     Config.default_phone_region := "NL" |}.

(** The endpoint over the small phone library, a decoder that always yields
    [bad_phone_payload], and the key-then-message stand-in for the MAC. *)
Definition endpoint_bad_phone (settings : Config.Settings) :=
  Main.receive_tally_webhook string CanonicalOnly.parse CanonicalOnly.is_valid_number
    CanonicalOnly.format_e164 (fun _ => None) concat_mac
    (fun _ => Some bad_phone_payload) settings.
(* ===================================================================== *)
(** * Properties of the field extractor *)
(* ===================================================================== *)

Lemma fold_index_lookup proj l : forall (d : gmap string Value) k,
  fold_left (index_step proj) l d !! k =
  match last_value proj k l with
  | Some v => Some v
  | None => d !! k
  end.
Proof.
  induction l as [|f rest IH]; intros d k; simpl; [reflexivity|].
  rewrite IH. destruct (last_value proj k rest) as [v|]; [reflexivity|].
  unfold index_step. destruct (nonempty (proj f)); simpl; [|reflexivity].
  destruct (String.eqb_spec (lower (proj f)) k) as [->|Hne].
  - apply lookup_insert_eq.
  - by apply lookup_insert_ne.
Qed.

(** The index built by [extract_field_value] is case-insensitive and keeps
    the last field of each key. *)
Lemma build_index_lookup proj l k :
  build_index proj l !! k = last_value proj k l.
Proof.
  unfold build_index. rewrite fold_index_lookup, lookup_empty.
  by destruct (last_value proj k l).
Qed.

(** Candidates that hit neither index are passed over. *)
Lemma search_candidates_skip by_key by_label pre rest :
  Forall (fun c => by_key !! lower c = None /\ by_label !! lower c = None) pre ->
  search_candidates by_key by_label (pre ++ rest) = search_candidates by_key by_label rest.
Proof.
  induction 1 as [|c pre [Hk Hl] _ IH]; simpl; [reflexivity|].
  by rewrite Hk, Hl.
Qed.

(** Single-field extraction: the first candidate found in either index
    decides, and within one candidate the key index is asked first. *)
Lemma search_candidates_first_hit by_key by_label pre c post :
  Forall (fun c => by_key !! lower c = None /\ by_label !! lower c = None) pre ->
  search_candidates by_key by_label (pre ++ c :: post) =
  match by_key !! lower c, by_label !! lower c with
  | Some v, _ => _normalize_value v
  | None, Some v => _normalize_value v
  | None, None => search_candidates by_key by_label post
  end.
Proof.
  intros Hpre. rewrite (search_candidates_skip _ _ _ _ Hpre). simpl.
  destruct (by_key !! lower c); [reflexivity|].
  by destruct (by_label !! lower c).
Qed.

(** Stated on the submitted fields: a key match of candidate [c] is returned
    whatever the labels of the submission are, and a label match of [c] is
    returned when no field has [c] as its key. *)
Lemma extract_field_value_precedence l logical_name field_map pre c post :
  field_map_get field_map logical_name = pre ++ c :: post ->
  Forall (fun c => last_value f_key (lower c) l = None
                   /\ last_value f_label (lower c) l = None) pre ->
  (forall v, last_value f_key (lower c) l = Some v ->
     extract_field_value l logical_name field_map = _normalize_value v)
  /\ (forall v, last_value f_key (lower c) l = None ->
        last_value f_label (lower c) l = Some v ->
        extract_field_value l logical_name field_map = _normalize_value v).
Proof.
  intros Hmap Hpre. unfold extract_field_value. rewrite Hmap.
  assert (Hpre' : Forall (fun c => build_index f_key l !! lower c = None
                                   /\ build_index f_label l !! lower c = None) pre).
  { eapply Forall_impl; [exact Hpre|]. intros x [? ?].
    by rewrite !build_index_lookup. }
  assert (Hgo : match pre ++ c :: post with
                | [] => None
                | _ :: _ => search_candidates (build_index f_key l)
                              (build_index f_label l) (pre ++ c :: post)
                end = search_candidates (build_index f_key l)
                        (build_index f_label l) (pre ++ c :: post)).
  { by destruct pre. }
  rewrite Hgo, (search_candidates_first_hit _ _ _ _ _ Hpre'), !build_index_lookup.
  split; intros v Hv.
  - by rewrite Hv.
  - intros Hv'. by rewrite Hv, Hv'.
Qed.

(** C6. Full-profile extraction consults the key dictionary only: on a
    submission whose first-name question matches the table by label alone,
    single-field extraction with the same candidate list finds "Ann", and
    [extract_form_fields] leaves [first_name] absent. *)
Theorem extract_form_fields_has_no_label_fallback : forall int_of_str,
  extract_field_value [label_only_field] "first_name" FORM_FIELD_MAP = Some "Ann"
  /\ match extract_form_fields int_of_str [label_only_field] with
     | Ok r => getattr r "first_name" = ANone
     | Raise _ => False
     end.
Proof. intros int_of_str. split; vm_compute; reflexivity. Qed.

(** ** Score attributes *)

Lemma fold_fields_by_key_elem l : forall (d : gmap string Field) k f,
  fold_left (fun d f => <[lower (f_key f) := f]> d) l d !! k = Some f ->
  f ∈ l \/ d !! k = Some f.
Proof.
  induction l as [|g rest IH]; intros d k f H; simpl in *; [by right|].
  apply IH in H as [H|H].
  - left. by right.
  - destruct (decide (lower (f_key g) = k)) as [<-|Hne].
    + rewrite lookup_insert_eq in H. injection H as <-. left. by left.
    + rewrite lookup_insert_ne in H by done. by right.
Qed.

Lemma fields_by_key_elem l k f : fields_by_key l !! k = Some f -> f ∈ l.
Proof.
  intros H. apply fold_fields_by_key_elem in H as [H|H]; [done|].
  by rewrite lookup_empty in H.
Qed.

Lemma first_field_lookup (by_key : gmap string Field) keys f :
  first_field by_key keys = Some f -> exists k, by_key !! k = Some f.
Proof.
  induction keys as [|key rest IH]; simpl; [done|].
  destruct (by_key !! lower key) as [g|] eqn:E.
  - intros [= <-]. eauto.
  - exact IH.
Qed.

Lemma typed_value_ok int_of_str f :
  scale_safe f = true -> exists v, typed_value int_of_str f = Ok v.
Proof.
  unfold scale_safe, typed_value. intros H.
  destruct (is_choice_type (f_type f)); [eauto|].
  destruct (String.eqb (f_type f) "LINEAR_SCALE"); simpl in H; [|eauto].
  destruct (f_value f) as [[| b | n | s]|l]; simpl; try discriminate; eauto.
Qed.

(** Full-profile extraction returns a record whenever every linear-scale
    answer is absent, an integer or a boolean. *)
Lemma extract_form_fields_ok int_of_str l :
  Forall (fun f => scale_safe f = true) l ->
  exists r, extract_form_fields int_of_str l = Ok r.
Proof.
  intros Hsafe. unfold extract_form_fields.
  generalize ExtractedFormFields_default. generalize FORM_FIELD_MAP.
  induction f as [|[attr_name keys] rest IH]; intros result; simpl; [eauto|].
  destruct (first_field (fields_by_key l) keys) as [fld|] eqn:E; [|apply IH].
  apply first_field_lookup in E as [k Hk]. apply fields_by_key_elem in Hk.
  rewrite Forall_forall in Hsafe.
  destruct (typed_value_ok int_of_str fld (Hsafe _ Hk)) as [v ->]. simpl. apply IH.
Qed.

Lemma attr_value_score attr_name v :
  endswith "_score" attr_name = true -> int_or_none (attr_value attr_name v).
Proof. unfold attr_value. intros ->. by destruct v. Qed.

Lemma extract_loop_scores int_of_str by_key items : forall result r,
  (forall name, endswith "_score" name = true -> int_or_none (getattr result name)) ->
  extract_loop int_of_str by_key items result = Ok r ->
  forall name, endswith "_score" name = true -> int_or_none (getattr r name).
Proof.
  induction items as [|[attr_name keys] rest IH]; intros result r Hinv; simpl.
  - by intros [= <-].
  - destruct (first_field by_key keys) as [fld|]; [|by apply IH].
    destruct (typed_value int_of_str fld) as [v|e]; simpl; [|done].
    apply IH. intros name Hname. unfold getattr, setattr.
    destruct (decide (attr_name = name)) as [->|Hne].
    + rewrite lookup_insert_eq. simpl. by apply attr_value_score.
    + rewrite lookup_insert_ne by done. by apply Hinv.
Qed.

Lemma default_lookup (items : FieldMap) n v :
  (list_to_map (map (fun item => (fst item, ANone)) items) : gmap string AttrValue) !! n
    = Some v -> v = ANone.
Proof.
  induction items as [|[name keys] rest IH]; simpl.
  - by rewrite lookup_empty.
  - destruct (decide (name = n)) as [->|Hne].
    + rewrite lookup_insert_eq. by intros [= <-].
    + by rewrite lookup_insert_ne.
Qed.

Lemma default_int_or_none (items : FieldMap) n :
  int_or_none (getattr (list_to_map (map (fun item => (fst item, ANone)) items)) n).
Proof.
  unfold getattr.
  destruct (_ !! n) as [v|] eqn:E; [|done].
  apply default_lookup in E. by subst v.
Qed.

(** When extraction returns, a "*_score" attribute holds an integer or is
    absent. *)
Lemma extract_form_fields_scores int_of_str l r name :
  extract_form_fields int_of_str l = Ok r ->
  endswith "_score" name = true ->
  int_or_none (getattr r name).
Proof.
  unfold extract_form_fields, ExtractedFormFields_default. intros H.
  exact (extract_loop_scores int_of_str _ _ _ r
           (fun n _ => default_int_or_none FORM_FIELD_MAP n) H name).
Qed.

Lemma extract_loop_skip int_of_str by_key attr_name keys rest result :
  first_field by_key keys = None ->
  extract_loop int_of_str by_key ((attr_name, keys) :: rest) result
  = extract_loop int_of_str by_key rest result.
Proof. intros H. simpl. by rewrite H. Qed.

Lemma extract_loop_raise int_of_str by_key attr_name keys rest result fld e :
  first_field by_key keys = Some fld ->
  typed_value int_of_str fld = Raise e ->
  extract_loop int_of_str by_key ((attr_name, keys) :: rest) result = Raise e.
Proof. intros H1 H2. simpl. by rewrite H1, H2. Qed.

(** Text that [int] rejects makes extraction raise [ValueError]. *)
Lemma extract_form_fields_raises_on_text int_of_str :
  int_of_str "abc" = None ->
  extract_form_fields int_of_str [scale_text_field] = Raise ValueError.
Proof.
  intros H. unfold extract_form_fields, FORM_FIELD_MAP.
  do 7 (rewrite extract_loop_skip by (vm_compute; reflexivity)).
  apply extract_loop_raise with (fld := scale_text_field); [vm_compute; reflexivity|].
  unfold typed_value. simpl. by rewrite H.
Qed.

(** C7. Full-profile extraction can raise: a linear-scale field of a
    "*_score" attribute is passed to [int] before the attribute is filtered,
    and [int] raises on a list (and on text that is not a number). *)
Theorem extract_form_fields_score_raises : forall int_of_str,
  endswith "_score" "creative_expression_score" = true
  /\ extract_form_fields int_of_str [scale_list_field] = Raise TypeError.
Proof. intros int_of_str. split; vm_compute; reflexivity. Qed.

(* ===================================================================== *)
(** * Properties of the phone normaliser *)
(* ===================================================================== *)

Lemma lstrip_all_space s : all_space s = true -> lstrip s = EmptyString.
Proof.
  induction s as [|c r IH]; simpl; [done|].
  destruct (isspace c); simpl; [exact IH|done].
Qed.

Lemma strip_all_space s : all_space s = true -> strip s = EmptyString.
Proof. intros H. unfold strip. by rewrite lstrip_all_space. Qed.

(* ===================================================================== *)
(** * Properties of the signature verifier *)
(* ===================================================================== *)

Lemma is_ascii_app a b :
  Verify.is_ascii (a +:+ b) = Verify.is_ascii a && Verify.is_ascii b.
Proof.
  induction a as [|c r IH]; simpl; [done|].
  by rewrite IH, andb_assoc.
Qed.

Lemma hex2_byte_ascii x : Verify.is_ascii (hex2 (Byte.to_N x)) = true.
Proof. destruct x; reflexivity. Qed.

(** A hexadecimal digest is ASCII text. *)
Lemma hexlify_ascii b : Verify.is_ascii (Verify.hexlify b) = true.
Proof.
  induction b as [|x r IH]; [done|].
  cbn [Verify.hexlify]. by rewrite is_ascii_app, hex2_byte_ascii, IH.
Qed.

Section SignatureVerifier.

Variable hmac_sha256 : Verify.bytes -> Verify.bytes -> Verify.bytes.

Local Abbreviation verify := (Verify.verify_tally_signature hmac_sha256).
Local Abbreviation expected := (Verify.compute_hmac_sha256 hmac_sha256).

(** Verification switched off: every request passes. *)
Lemma verify_disabled settings body header form_type :
  Config.verify_tally_signature settings = false ->
  verify settings body header form_type = Ok (true, None).
Proof. intros H. unfold Verify.verify_tally_signature. by rewrite H. Qed.

(** Verification switched on, for the two form kinds and an ASCII header:
    an unconfigured secret, a missing (or empty) header and a mismatch each
    fail with their own reason, and the request passes exactly when the
    header is the hexadecimal HMAC-SHA256 of the raw body. *)
Lemma verify_enabled_ascii settings body header form_type secret :
  Config.verify_tally_signature settings = true ->
  form_secret settings form_type = Some secret ->
  (secret = EmptyString ->
     verify settings body header form_type =
     Ok (false, Some ("Signature verification enabled but no secret configured for "
                        +:+ form_type +:+ " form")))
  /\ (secret <> EmptyString -> truthy header = false ->
        verify settings body header form_type =
        Ok (false, Some "Missing tally-signature header"))
  /\ (forall h, secret <> EmptyString -> header = Some h -> h <> EmptyString ->
        Verify.is_ascii h = true ->
        (h = expected body secret ->
           verify settings body header form_type = Ok (true, None))
        /\ (h <> expected body secret ->
              verify settings body header form_type = Ok (false, Some "Invalid signature"))).
Proof.
  intros Hon Hsecret.
  assert (Hv : verify settings body header form_type =
    if negb (nonempty secret) then
      Ok (false, Some ("Signature verification enabled but no secret configured for "
                         +:+ form_type +:+ " form"))
    else if negb (truthy header) then Ok (false, Some "Missing tally-signature header")
    else
      let? same := Verify.compare_digest (default EmptyString header)
                     (expected body secret) in
      if negb same then Ok (false, Some "Invalid signature") else Ok (true, None)).
  { unfold Verify.verify_tally_signature, form_secret in *. rewrite Hon. simpl.
    destruct (String.eqb form_type "signup");
      [|destruct (String.eqb form_type "payment"); [|done]];
      injection Hsecret as <-; reflexivity. }
  rewrite Hv. clear Hv. split; [by intros ->|]. split.
  - intros Hs Hh. destruct secret; [done|]. simpl. by rewrite Hh.
  - intros h Hs -> Hh Ha. destruct secret as [|a secret]; [done|].
    assert (Hne : nonempty h = true) by (by destruct h).
    cbn [nonempty negb truthy default]. rewrite Hne. cbn [negb].
    unfold Verify.compare_digest, Verify.compute_hmac_sha256.
    unfold id. rewrite Ha, hexlify_ascii. cbn [andb res_bind].
    split; intros Heq.
    + unfold Verify.compute_hmac_sha256 in Heq. rewrite <- Heq, String.eqb_refl.
      reflexivity.
    + unfold Verify.compute_hmac_sha256 in Heq.
      destruct (String.eqb_spec h
                  (Verify.hexlify (hmac_sha256 (Verify.encode_utf8 (String a secret)) body)));
        [done|reflexivity].
Qed.

(** C9. With verification on and the secret configured, a header holding a
    character outside ASCII makes [verify_tally_signature] raise [TypeError]
    in [hmac.compare_digest], where a mismatch should be reported as an
    invalid signature. *)
Theorem verify_tally_signature_raises_on_non_ascii : forall body,
  Config.verify_tally_signature settings_verifying = true
  /\ form_secret settings_verifying "signup" = Some "signup-secret"
  /\ latin1_header <> expected body "signup-secret"
  /\ verify settings_verifying body (Some latin1_header) "signup" = Raise TypeError.
Proof.
  intros body. split; [reflexivity|]. split; [reflexivity|]. split; [|reflexivity].
  intros H. pose proof (hexlify_ascii (hmac_sha256 (Verify.encode_utf8 "signup-secret") body)) as Ha.
  unfold Verify.compute_hmac_sha256 in H. rewrite <- H in Ha. discriminate Ha.
Qed.

End SignatureVerifier.

(* ===================================================================== *)
(** * Properties of the payment matcher *)
(* ===================================================================== *)

Import Parsed Models Store Db SignupService PaymentService.

Lemma session_eq (a b : Session) :
  registrations a = registrations b -> signups a = signups b ->
  payments a = payments b -> oplog a = oplog b -> a = b.
Proof. destruct a, b. simpl. by intros -> -> -> ->. Qed.

Lemma alter_found {A} (f : A -> A) (m : gmap string A) k x :
  m !! k = Some x -> alter f k m = <[k := f x]> m.
Proof.
  intros H. apply map_eq. intros j. rewrite lookup_alter.
  destruct (decide (k = j)) as [<-|Hne].
  - by rewrite H, lookup_insert_eq.
  - by rewrite lookup_insert_ne.
Qed.

(** What the payment audit does to a session. *)
Lemma payment_log_run env parsed s :
  PaymentService._log_submission env parsed s =
  (audit_row env parsed s,
   {| registrations := registrations s;
      signups := signups s;
      payments := payments s ++ [audit_row env parsed s];
      oplog := oplog s ++ audit_ops parsed |}).
Proof.
  unfold PaymentService._log_submission, audit_row, audit_ops, audit_phone,
    _check_phone_in_signups, signup_phone_exists, session_add_payment, bind, ret, log.
  destruct (truthy (or_else (pp_phone_e164 parsed) (pp_phone_raw parsed))); simpl.
  - f_equal. apply session_eq; simpl; try reflexivity. by rewrite <- app_assoc.
  - reflexivity.
Qed.

(** The final block: an audit row and the orphan result, no registration
    touched. *)
Lemma orphan_run env parsed s :
  orphan env parsed s =
  (orphan_result,
   {| registrations := registrations s;
      signups := signups s;
      payments := payments s ++ [audit_row env parsed s];
      oplog := oplog s ++ audit_ops parsed |}).
Proof. unfold orphan, bind, ret. by rewrite payment_log_run. Qed.

(** C4, as the code has it. A payment with neither a registration id nor a
    canonical phone is rejected at once: [success] is false, there is no
    registration id and no link status, the session is left exactly as it
    was (no registration touched, no statement issued, no audit row), and the
    result carries [is_emergency = true]. *)
Theorem payment_without_identifiers_rejected env parsed s :
  truthy (pp_registration_id parsed) = false ->
  truthy (pp_phone_e164 parsed) = false ->
  process_payment env parsed s = (rejected_result, s)
  /\ success rejected_result = false
  /\ link_status rejected_result = None
  /\ is_emergency rejected_result = true
  /\ rejected_result <> orphan_result.
Proof.
  intros Hr Hp. unfold process_payment. rewrite Hr, Hp. simpl.
  repeat split. discriminate.
Qed.

Lemma truthy_some (rid : string) : rid <> EmptyString -> truthy (Some rid) = true.
Proof. by destruct rid. Qed.

(** C2. A payment whose registration id names an existing registration is
    settled by the primary-key lookup, before any phone query: the row is
    marked paid with the payment's payload and claimed fields, the link
    status is matched_by_registration_id, [updated_at] is the time of the
    request, one audit row is written, and the result is a success for that
    registration id that is not an emergency. *)
Theorem payment_direct_match env parsed s rid r :
  store_wf s ->
  pp_registration_id parsed = Some rid ->
  rid <> EmptyString ->
  registrations s !! rid = Some r ->
  let r' := _mark_paid parsed (now env) MATCHED_BY_REGISTRATION_ID r in
  exists s',
    process_payment env parsed s =
      ({| success := true;
          pr_registration_id := Some rid;
          link_status := Some MATCHED_BY_REGISTRATION_ID;
          is_emergency := false;
          error_message := None |}, s')
    /\ registrations s' = <[rid := r']> (registrations s)
    /\ (paid r' = true /\ paid_at r' = Some (now env)
        /\ payment_payload r' = Some (pp_raw_payload parsed)
        /\ payment_received_at r' = Some (now env)
        /\ payment_claimed_registration_id r' = Some rid
        /\ payment_claimed_phone_e164 r' = pp_phone_e164 parsed
        /\ payment_link_status r' = "matched_by_registration_id"
        /\ updated_at r' = now env)
    /\ signups s' = signups s
    /\ payments s' = payments s ++ [audit_row env parsed s]
    /\ oplog s' = oplog s ++ OpGetRegistration rid :: audit_ops parsed
    /\ (forall e p, ~ In (OpSelectByEventPhone e p) (OpGetRegistration rid :: audit_ops parsed)).
Proof.
  intros Hwf Hid Hne Hr r'.
  unfold process_payment. rewrite Hid, (truthy_some _ Hne). simpl.
  unfold bind, session_get, log, update_registration, set_registrations, ret. simpl.
  rewrite Hr, payment_log_run. simpl.
  rewrite (Hwf _ _ Hr). eexists. split; [reflexivity|]. simpl.
  split; [by apply alter_found|]. split.
  { subst r'. simpl. by rewrite Hid. }
  split; [reflexivity|]. split; [reflexivity|]. split.
  { by rewrite <- app_assoc. }
  intros e p [H|H]; [discriminate|].
  unfold audit_ops in H. destruct (truthy (audit_phone parsed)); simpl in H;
    intuition discriminate.
Qed.

(** The session once statement [op] has been issued. *)
Lemma log_run op s :
  log op s = (tt, {| registrations := registrations s; signups := signups s;
                     payments := payments s; oplog := oplog s ++ [op] |}).
Proof. reflexivity. Qed.

(** When the primary-key lookup finds nothing, [process_payment] goes on with
    the phone step; the lookup is issued only for a non-empty claimed id. *)
Lemma payment_falls_through env parsed s :
  (truthy (pp_registration_id parsed) = true \/ truthy (pp_phone_e164 parsed) = true) ->
  direct_miss parsed s ->
  process_payment env parsed s =
  match_by_phone env parsed
    {| registrations := registrations s; signups := signups s; payments := payments s;
       oplog := oplog s ++
         (if truthy (pp_registration_id parsed)
          then [OpGetRegistration (default EmptyString (pp_registration_id parsed))]
          else []) |}.
Proof.
  intros Hsome Hmiss. unfold process_payment.
  destruct (truthy (pp_registration_id parsed)) eqn:Hr; simpl.
  - destruct Hmiss as [Hm|Hm]; [congruence|].
    unfold bind, session_get, log. simpl. by rewrite Hm.
  - destruct Hsome as [Hs|Hs]; [congruence|]. rewrite Hs. simpl.
    f_equal. apply session_eq; simpl; try reflexivity. by rewrite app_nil_r.
Qed.

Lemma phone_matches_oplog event phone rs su pa ol :
  phone_matches event phone
    {| registrations := rs; signups := su; payments := pa; oplog := ol |}
  = filter (fun r => event_id r = event /\ phone_e164 r = Some phone) (map_to_list rs).*2.
Proof. reflexivity. Qed.

(** The phone step, by the number of registrations the query returns. *)
Lemma match_by_phone_run env parsed s e p :
  pp_event_id parsed = Some e -> e <> EmptyString ->
  pp_phone_e164 parsed = Some p -> p <> EmptyString ->
  match_by_phone env parsed s =
  let s1 := {| registrations := registrations s; signups := signups s;
               payments := payments s;
               oplog := oplog s ++ [OpSelectByEventPhone e p] |} in
  match phone_matches e p s with
  | [] =>
      (orphan_result,
       {| registrations := registrations s; signups := signups s;
          payments := payments s ++ [audit_row env parsed s];
          oplog := oplog s1 ++ audit_ops parsed |})
  | [r] =>
      ({| success := true;
          pr_registration_id := Some (registration_id r);
          link_status := Some MATCHED_BY_PHONE;
          is_emergency := false;
          error_message := None |},
       {| registrations :=
            alter (_mark_paid parsed (now env) MATCHED_BY_PHONE) (registration_id r)
              (registrations s);
          signups := signups s;
          payments := payments s ++ [audit_row env parsed s];
          oplog := oplog s1 ++ audit_ops parsed |})
  | _ :: _ :: _ =>
      ({| success := true;
          pr_registration_id := None;
          link_status := Some AMBIGUOUS_PHONE_MATCH;
          is_emergency := true;
          error_message := Some ("Multiple registrations found for phone " +:+ p) |},
       {| registrations := registrations s; signups := signups s;
          payments := payments s ++ [audit_row env parsed s];
          oplog := oplog s1 ++ audit_ops parsed |})
  end.
Proof.
  intros He Hne Hp Hnp. unfold match_by_phone.
  rewrite He, Hp, (truthy_some _ Hne), (truthy_some _ Hnp). simpl.
  unfold bind, _find_by_event_and_phone, select_by_event_phone, bind, log. simpl.
  fold (phone_matches e p s).
  destruct (phone_matches e p s) as [|r [|r2 rest]].
  - by rewrite orphan_run.
  - unfold update_registration, set_registrations, ret. simpl.
    by rewrite payment_log_run.
  - unfold ret. by rewrite payment_log_run.
Qed.

(** The phone step without both an event id and a canonical phone: the
    orphan block. *)
Lemma match_by_phone_skipped env parsed s :
  truthy (pp_event_id parsed) && truthy (pp_phone_e164 parsed) = false ->
  match_by_phone env parsed s = orphan env parsed s.
Proof. intros H. unfold match_by_phone. by rewrite H. Qed.

(** C3. When the phone query of a payment returns no registration, or more
    than one, no registration is changed, one audit row is written, and the
    result is a success flagged as an emergency with no registration id:
    orphan_payment for no match, ambiguous_phone_match for several, the
    latter with the message "Multiple registrations found for phone <phone>". *)
Theorem payment_phone_unresolved env parsed s e p :
  pp_event_id parsed = Some e -> e <> EmptyString ->
  pp_phone_e164 parsed = Some p -> p <> EmptyString ->
  direct_miss parsed s ->
  length (phone_matches e p s) <> 1%nat ->
  exists res s',
    process_payment env parsed s = (res, s')
    /\ registrations s' = registrations s
    /\ signups s' = signups s
    /\ payments s' = payments s ++ [audit_row env parsed s]
    /\ oplog s' = oplog s ++ phone_branch_ops parsed ++ audit_ops parsed
    /\ success res = true
    /\ is_emergency res = true
    /\ pr_registration_id res = None
    /\ (phone_matches e p s = [] ->
          link_status res = Some ORPHAN_PAYMENT
          /\ error_message res = Some "No matching registration found for payment")
    /\ ((2 <= length (phone_matches e p s))%nat ->
          link_status res = Some AMBIGUOUS_PHONE_MATCH
          /\ error_message res = Some ("Multiple registrations found for phone " +:+ p)).
Proof.
  intros He Hne Hp Hnp Hmiss Hlen.
  rewrite (payment_falls_through env parsed s); [|right; rewrite Hp; by apply truthy_some|done].
  rewrite (match_by_phone_run env parsed _ e p He Hne Hp Hnp).
  rewrite phone_matches_oplog. fold (phone_matches e p s). cbn zeta.
  unfold phone_branch_ops. rewrite He, Hp. cbn [default from_option id].
  destruct (phone_matches e p s) as [|r [|r2 rest]]; [|done|].
  - eexists _, _. split; [reflexivity|]. simpl.
    repeat split; try reflexivity; try (simpl; intros; lia).
    by rewrite <- !app_assoc.
  - eexists _, _. split; [reflexivity|]. simpl.
    repeat split; try reflexivity; try discriminate.
    by rewrite <- !app_assoc.
Qed.

(** A registration returned by the phone query is a row of the table, with
    the event id and the phone asked for. *)
Lemma phone_matches_elem event phone s r :
  r ∈ phone_matches event phone s ->
  (exists k, registrations s !! k = Some r)
  /\ event_id r = event /\ phone_e164 r = Some phone.
Proof.
  unfold phone_matches. intros H.
  apply list_elem_of_filter in H as [[He Hp] H].
  apply list_elem_of_fmap in H as [[k r'] [-> H]].
  apply elem_of_map_to_list in H. eauto.
Qed.

(** C10. A payment whose registration id names no registration does not
    fail. With an event id and a canonical phone it goes on to the phone
    query, and a single match is marked matched_by_phone with the unknown
    claimed id recorded as it came; without them it is an orphan payment. *)
Theorem payment_unknown_registration_id env parsed s rid :
  store_wf s ->
  pp_registration_id parsed = Some rid ->
  rid <> EmptyString ->
  registrations s !! rid = None ->
  exists res s',
    process_payment env parsed s = (res, s')
    /\ success res = true
    /\ (forall e p,
          pp_event_id parsed = Some e -> e <> EmptyString ->
          pp_phone_e164 parsed = Some p -> p <> EmptyString ->
          oplog s' = oplog s ++ [OpGetRegistration rid; OpSelectByEventPhone e p]
                       ++ audit_ops parsed
          /\ forall r, phone_matches e p s = [r] ->
               let r' := _mark_paid parsed (now env) MATCHED_BY_PHONE r in
               registrations s' = <[registration_id r := r']> (registrations s)
               /\ payment_link_status r' = "matched_by_phone"
               /\ paid r' = true
               /\ payment_claimed_registration_id r' = Some rid
               /\ res = {| success := true;
                           pr_registration_id := Some (registration_id r);
                           link_status := Some MATCHED_BY_PHONE;
                           is_emergency := false;
                           error_message := None |})
    /\ (truthy (pp_event_id parsed) && truthy (pp_phone_e164 parsed) = false ->
          res = orphan_result
          /\ registrations s' = registrations s
          /\ payments s' = payments s ++ [audit_row env parsed s]).
Proof.
  intros Hwf Hid Hne Hnone.
  assert (Hmiss : direct_miss parsed s).
  { right. by rewrite Hid. }
  rewrite (payment_falls_through env parsed s);
    [|left; rewrite Hid; by apply truthy_some|done].
  rewrite Hid, (truthy_some _ Hne). cbn [default from_option id].
  destruct (truthy (pp_event_id parsed) && truthy (pp_phone_e164 parsed)) eqn:Hboth.
  - apply andb_true_iff in Hboth as [Hte Htp].
    destruct (pp_event_id parsed) as [e|] eqn:He; [|done].
    destruct (pp_phone_e164 parsed) as [p|] eqn:Hp; [|done].
    assert (Hne' : e <> EmptyString) by (by destruct e).
    assert (Hnp' : p <> EmptyString) by (by destruct p).
    rewrite (match_by_phone_run env parsed _ e p He Hne' Hp Hnp').
    rewrite phone_matches_oplog. fold (phone_matches e p s). cbn zeta.
    destruct (phone_matches e p s) as [|r [|r2 rest]] eqn:Hm.
    + eexists _, _. split; [reflexivity|]. split; [reflexivity|]. split; [|done].
      intros e' p' [= <-] _ [= <-] _. simpl. split; [by rewrite <- !app_assoc|].
      intros r0 Hr0. rewrite Hm in Hr0. discriminate.
    + assert (Hin : r ∈ phone_matches e p s) by (rewrite Hm; by left).
      apply phone_matches_elem in Hin as [[k Hk] _].
      pose proof (Hwf _ _ Hk) as Hkey. subst k.
      eexists _, _. split; [reflexivity|]. split; [reflexivity|]. split; [|done].
      intros e' p' [= <-] _ [= <-] _. simpl. split; [by rewrite <- !app_assoc|].
      intros r0 Hr0. rewrite Hm in Hr0. injection Hr0 as <-.
      split; [by apply alter_found|].
      repeat split; try reflexivity. by rewrite Hid.
    + eexists _, _. split; [reflexivity|]. split; [reflexivity|]. split; [|done].
      intros e' p' [= <-] _ [= <-] _. simpl. split; [by rewrite <- !app_assoc|].
      intros r0 Hr0. rewrite Hm in Hr0. discriminate.
  - rewrite (match_by_phone_skipped _ _ _ Hboth), orphan_run.
    eexists _, _. split; [reflexivity|]. split; [reflexivity|]. split; [|done].
    intros e p He Hne' Hp Hnp'. rewrite He, Hp in Hboth.
    rewrite (truthy_some _ Hne'), (truthy_some _ Hnp') in Hboth. discriminate.
Qed.

(* ===================================================================== *)
(** * The paid invariant *)
(* ===================================================================== *)

Lemma match_by_phone_cases env parsed s :
  let out := match_by_phone env parsed s in
  (registrations (snd out) = registrations s
   /\ link_status (fst out) <> Some MATCHED_BY_REGISTRATION_ID
   /\ link_status (fst out) <> Some MATCHED_BY_PHONE)
  \/ (exists k, registrations (snd out) =
                  alter (_mark_paid parsed (now env) MATCHED_BY_PHONE) k (registrations s)
                /\ link_status (fst out) = Some MATCHED_BY_PHONE).
Proof.
  unfold match_by_phone.
  destruct (truthy (pp_event_id parsed) && truthy (pp_phone_e164 parsed)).
  - unfold bind, _find_by_event_and_phone, select_by_event_phone, bind, log. simpl.
    match goal with |- context [filter ?P ?l] => destruct (filter P l) as [|r [|r2 rest]] end.
    + rewrite orphan_run. simpl. left. by repeat split.
    + unfold update_registration, set_registrations, ret. simpl.
      rewrite payment_log_run. simpl. right. eauto.
    + unfold ret. rewrite payment_log_run. simpl. left. by repeat split.
  - rewrite orphan_run. simpl. left. by repeat split.
Qed.

(** Every payment either leaves the registrations as they were, or marks one
    of them paid with a matched_by status, the status it returns. *)
Lemma process_payment_cases env parsed s :
  let out := process_payment env parsed s in
  (registrations (snd out) = registrations s
   /\ link_status (fst out) <> Some MATCHED_BY_REGISTRATION_ID
   /\ link_status (fst out) <> Some MATCHED_BY_PHONE)
  \/ (exists k st, registrations (snd out) =
                     alter (_mark_paid parsed (now env) st) k (registrations s)
                   /\ (st = MATCHED_BY_REGISTRATION_ID \/ st = MATCHED_BY_PHONE)
                   /\ link_status (fst out) = Some st).
Proof.
  assert (Hphone : forall s0, registrations s0 = registrations s ->
    let out := match_by_phone env parsed s0 in
    (registrations (snd out) = registrations s
     /\ link_status (fst out) <> Some MATCHED_BY_REGISTRATION_ID
     /\ link_status (fst out) <> Some MATCHED_BY_PHONE)
    \/ (exists k st, registrations (snd out) =
                       alter (_mark_paid parsed (now env) st) k (registrations s)
                     /\ (st = MATCHED_BY_REGISTRATION_ID \/ st = MATCHED_BY_PHONE)
                     /\ link_status (fst out) = Some st)).
  { intros s0 Hs0. cbn zeta. rewrite <- Hs0.
    destruct (match_by_phone_cases env parsed s0) as [H|[k [H1 H2]]]; [by left|].
    right. exists k, MATCHED_BY_PHONE. eauto. }
  unfold process_payment.
  destruct (negb (truthy (pp_registration_id parsed)) && negb (truthy (pp_phone_e164 parsed))).
  { left. by repeat split. }
  destruct (truthy (pp_registration_id parsed)); [|by apply Hphone].
  unfold bind at 1. unfold session_get, bind, log. simpl.
  destruct (registrations s !! default EmptyString (pp_registration_id parsed)) as [r|].
  - unfold update_registration, set_registrations, ret. simpl.
    rewrite payment_log_run. simpl. right.
    exists (registration_id r), MATCHED_BY_REGISTRATION_ID. eauto.
  - by apply Hphone.
Qed.

Lemma mark_paid_invariant parsed t st r :
  st = MATCHED_BY_REGISTRATION_ID \/ st = MATCHED_BY_PHONE ->
  paid_implies_matched (_mark_paid parsed t st r).
Proof. intros [-> | ->] _; simpl; [by left|by right]. Qed.

Lemma process_payment_invariant env parsed s :
  (forall k r, registrations s !! k = Some r -> paid_implies_matched r) ->
  forall k r, registrations (snd (process_payment env parsed s)) !! k = Some r ->
              paid_implies_matched r.
Proof.
  intros Hinv k r.
  destruct (process_payment_cases env parsed s) as [[-> _]|[k' [st [-> [Hst _]]]]].
  - apply Hinv.
  - rewrite lookup_alter. destruct (decide (k' = k)) as [->|Hne]; [|apply Hinv].
    destruct (registrations s !! k) as [r0|]; simpl; [|done].
    intros [= <-]. by apply mark_paid_invariant.
Qed.

(** What a signup does to the registrations: the row of its registration id
    is created unpaid, or has its signup side rewritten. *)
Lemma process_signup_run env parsed s :
  let id :=
    if negb (truthy (ps_registration_id parsed)) then generated_registration_id env
    else default EmptyString (ps_registration_id parsed) in
  let event :=
    if negb (truthy (ps_event_id parsed))
    then generated_event_id env
           (if negb (truthy (ps_registration_id parsed)) then 1%nat else 0%nat)
    else default EmptyString (ps_event_id parsed) in
  let out := process_signup env parsed s in
  sr_success (fst out) = true
  /\ sr_registration_id (fst out) = Some id
  /\ payments (snd out) = payments s
  /\ match registrations s !! id with
     | Some existing =>
         sr_is_new (fst out) = false
         /\ registrations (snd out) =
              alter (signup_update parsed event (now env)) (registration_id existing)
                (registrations s)
     | None =>
         sr_is_new (fst out) = true
         /\ registrations (snd out) =
              <[id := signup_create env parsed id event]> (registrations s)
     end.
Proof.
  cbn zeta. unfold process_signup.
  set (id := if negb (truthy (ps_registration_id parsed)) then _ else _).
  set (event := if negb (truthy (ps_event_id parsed)) then _ else _).
  unfold bind at 1. unfold session_get, bind, log. simpl.
  destruct (registrations s !! id) as [existing|];
    unfold SignupService._log_submission, update_registration, session_add_registration,
      session_add_signup, set_registrations, bind, ret, log; simpl.
  all: by repeat split.
Qed.

Lemma process_signup_invariant env parsed s :
  (forall k r, registrations s !! k = Some r -> paid_implies_matched r) ->
  forall k r, registrations (snd (process_signup env parsed s)) !! k = Some r ->
              paid_implies_matched r.
Proof.
  intros Hinv k r.
  destruct (process_signup_run env parsed s) as (_ & _ & _ & H).
  destruct (registrations s !! _) as [existing|]; destruct H as [_ ->].
  - rewrite lookup_alter. destruct (decide (registration_id existing = k)) as [<-|Hne];
      [|apply Hinv].
    destruct (registrations s !! registration_id existing) as [r0|] eqn:E; simpl; [|done].
    intros [= <-]. exact (Hinv _ _ E).
  - rewrite lookup_insert. destruct (decide _) as [->|Hne]; [|apply Hinv].
    intros [= <-]. intros Hpaid. discriminate Hpaid.
Qed.

(** C1. Starting from a store in which every paid registration has a
    matched_by status, the same holds after any sequence of signups and
    payments; a payment that ends as orphan_payment or ambiguous_phone_match
    changes no registration; and a registration created by a signup is
    unpaid with status unpaid. *)
Theorem paid_implies_matched_invariant s0 s :
  (forall k r, registrations s0 !! k = Some r -> paid_implies_matched r) ->
  reachable_from s0 s ->
  (forall k r, registrations s !! k = Some r -> paid_implies_matched r)
  /\ (forall env parsed,
        link_status (fst (process_payment env parsed s)) = Some ORPHAN_PAYMENT
        \/ link_status (fst (process_payment env parsed s)) = Some AMBIGUOUS_PHONE_MATCH ->
        registrations (snd (process_payment env parsed s)) = registrations s)
  /\ (forall env parsed,
        sr_is_new (fst (process_signup env parsed s)) = true ->
        exists id r,
          sr_registration_id (fst (process_signup env parsed s)) = Some id
          /\ registrations s !! id = None
          /\ registrations (snd (process_signup env parsed s)) !! id = Some r
          /\ paid r = false
          /\ payment_link_status r = "unpaid").
Proof.
  intros H0 Hreach. split; [|split].
  - induction Hreach as [|s s' _ IH Hstep]; [exact H0|].
    destruct Hstep as [env parsed s|env parsed s].
    + by apply process_signup_invariant.
    + by apply process_payment_invariant.
  - intros env parsed Hst.
    destruct (process_payment_cases env parsed s) as [[H _]|[k [st [_ [Hm Hl]]]]]; [done|].
    rewrite Hl in Hst. destruct Hm as [-> | ->], Hst as [Hst|Hst]; discriminate Hst.
  - intros env parsed Hnew.
    destruct (process_signup_run env parsed s) as (_ & Hid & _ & H).
    destruct (registrations s !! _) as [existing|] eqn:E; destruct H as [Hn Hregs].
    + rewrite Hn in Hnew. discriminate Hnew.
    + eexists _, _. split; [exact Hid|]. split; [exact E|]. rewrite Hregs.
      split; [apply lookup_insert_eq|]. by split.
Qed.

(* ===================================================================== *)
(** * Repeated signups *)
(* ===================================================================== *)

Lemma signup_id_given env parsed rid :
  ps_registration_id parsed = Some rid -> rid <> EmptyString ->
  (if negb (truthy (ps_registration_id parsed)) then generated_registration_id env
   else default EmptyString (ps_registration_id parsed)) = rid.
Proof. intros -> H. by rewrite (truthy_some _ H). Qed.

Lemma signup_event_given env parsed n :
  truthy (ps_event_id parsed) = true ->
  (if negb (truthy (ps_event_id parsed)) then generated_event_id env n
   else default EmptyString (ps_event_id parsed)) = default EmptyString (ps_event_id parsed).
Proof. by intros ->. Qed.

(** One signup carrying registration id [rid]: the row under [rid] afterwards
    and the rest of the table. *)
Lemma process_signup_with_id env parsed s rid :
  store_wf s ->
  ps_registration_id parsed = Some rid -> rid <> EmptyString ->
  let out := process_signup env parsed s in
  let event :=
    if negb (truthy (ps_event_id parsed)) then generated_event_id env 0
    else default EmptyString (ps_event_id parsed) in
  let row :=
    match registrations s !! rid with
    | Some r0 => signup_update parsed event (now env) r0
    | None => signup_create env parsed rid event
    end in
  sr_registration_id (fst out) = Some rid
  /\ sr_is_new (fst out) = match registrations s !! rid with Some _ => false | None => true end
  /\ registrations (snd out) = <[rid := row]> (registrations s)
  /\ store_wf (snd out).
Proof.
  intros Hwf Hid Hne. cbn zeta.
  destruct (process_signup_run env parsed s) as (_ & Hres & _ & H).
  rewrite (signup_id_given env parsed rid Hid Hne) in Hres, H.
  rewrite Hid, (truthy_some _ Hne) in H. cbn [negb] in H.
  split; [exact Hres|].
  assert (Hregs : registrations (snd (process_signup env parsed s)) =
    <[rid := match registrations s !! rid with
             | Some r0 =>
                 signup_update parsed
                   (if negb (truthy (ps_event_id parsed)) then generated_event_id env 0
                    else default EmptyString (ps_event_id parsed)) (now env) r0
             | None =>
                 signup_create env parsed rid
                   (if negb (truthy (ps_event_id parsed)) then generated_event_id env 0
                    else default EmptyString (ps_event_id parsed))
             end]> (registrations s)).
  { destruct (registrations s !! rid) as [r0|] eqn:E; destruct H as [_ ->]; [|done].
    rewrite (Hwf _ _ E). by apply alter_found. }
  split; [|split; [exact Hregs|]].
  - destruct (registrations s !! rid); by destruct H.
  - intros k r. rewrite Hregs, lookup_insert.
    destruct (decide (rid = k)) as [<-|Hk]; [|apply Hwf].
    intros [= <-]. destruct (registrations s !! rid) as [r0|] eqn:E; simpl; [|done].
    exact (Hwf _ _ E).
Qed.

(** C5, as the code has it. For a signup record that carries a registration
    id, two applications leave one row under that id: the second creates
    none and returns [is_new = false]; it leaves the registration id, the
    contact fields, the signup payload, the creation time and the payment
    side of the row as the first left them, the event id too when the record
    carries one, and sets the two signup timestamps to its own time. Neither
    application changes the payment side of a registration that was already
    there, and every other registration is untouched. *)
Theorem resignup_with_id env1 env2 parsed s0 rid :
  store_wf s0 ->
  ps_registration_id parsed = Some rid -> rid <> EmptyString ->
  let out1 := process_signup env1 parsed s0 in
  let out2 := process_signup env2 parsed (snd out1) in
  exists r1 r2,
    sr_registration_id (fst out1) = Some rid
    /\ sr_registration_id (fst out2) = Some rid
    /\ sr_is_new (fst out2) = false
    /\ registrations (snd out1) !! rid = Some r1
    /\ registrations (snd out2) = <[rid := r2]> (registrations (snd out1))
    /\ dom (registrations (snd out2)) = dom (registrations (snd out1))
    /\ (forall k, k <> rid -> registrations (snd out2) !! k = registrations s0 !! k)
    /\ registration_id r2 = registration_id r1
    /\ email r2 = email r1 /\ phone_e164 r2 = phone_e164 r1
    /\ full_name r2 = full_name r1 /\ signup_payload r2 = signup_payload r1
    /\ created_at r2 = created_at r1
    /\ payment_side r2 = payment_side r1
    /\ (truthy (ps_event_id parsed) = true -> event_id r2 = event_id r1)
    /\ signup_received_at r2 = Some (now env2) /\ updated_at r2 = now env2
    /\ (forall r0, registrations s0 !! rid = Some r0 -> payment_side r1 = payment_side r0).
Proof.
  intros Hwf Hid Hne. cbn zeta.
  destruct (process_signup_with_id env1 parsed s0 rid Hwf Hid Hne)
    as (Hres1 & _ & Hregs1 & Hwf1).
  destruct (process_signup_with_id env2 parsed _ rid Hwf1 Hid Hne)
    as (Hres2 & Hnew2 & Hregs2 & _).
  set (s1 := snd (process_signup env1 parsed s0)) in *.
  set (s2 := snd (process_signup env2 parsed s1)) in *.
  assert (H1 : exists r1, registrations s1 !! rid = Some r1).
  { rewrite Hregs1, lookup_insert_eq. eauto. }
  destruct H1 as [r1 Hr1]. rewrite Hr1 in Hnew2, Hregs2.
  eexists r1, _. split; [exact Hres1|]. split; [exact Hres2|]. split; [exact Hnew2|].
  split; [exact Hr1|]. split; [exact Hregs2|]. split.
  { rewrite Hregs2. apply dom_insert_lookup_L. eauto. }
  split.
  { intros k Hk. by rewrite Hregs2, lookup_insert_ne, Hregs1, lookup_insert_ne. }
  assert (Hrow := Hr1). rewrite Hregs1, lookup_insert_eq in Hrow.
  injection Hrow as Hrow.
  split; [reflexivity|].
  assert (Hfields : forall r0 : option Registration,
    let event1 := if negb (truthy (ps_event_id parsed)) then generated_event_id env1 0
                  else default EmptyString (ps_event_id parsed) in
    let row := match r0 with
               | Some r => signup_update parsed event1 (now env1) r
               | None => signup_create env1 parsed rid event1
               end in
    email row = ps_email parsed /\ phone_e164 row = ps_phone_e164 parsed
    /\ full_name row = ps_full_name parsed
    /\ signup_payload row = Some (ps_raw_payload parsed)
    /\ event_id row = event1).
  { by intros [r|]. }
  destruct (Hfields (registrations s0 !! rid)) as (E1 & E2 & E3 & E4 & E5).
  cbn zeta in *. rewrite Hrow in E1, E2, E3, E4, E5. simpl.
  repeat (split; [done|]). split.
  { intros Hev. rewrite E5.
    by rewrite (signup_event_given env1 parsed 0%nat Hev),
      (signup_event_given env2 parsed 0%nat Hev). }
  repeat (split; [reflexivity|]).
  intros r0 Hr0. rewrite Hr0 in Hrow. by subst r1.
Qed.

(* ===================================================================== *)
(** * Well-formed stores *)
(* ===================================================================== *)

Lemma store_wf_empty : store_wf empty_session.
Proof. intros k r H. simpl in H. by rewrite lookup_empty in H. Qed.

Lemma store_wf_alter (f : Registration -> Registration) k s s' :
  (forall r, registration_id (f r) = registration_id r) ->
  registrations s' = alter f k (registrations s) ->
  store_wf s -> store_wf s'.
Proof.
  intros Hf Hregs Hwf j r. rewrite Hregs, lookup_alter.
  destruct (decide (k = j)) as [<-|Hne]; [|apply Hwf].
  destruct (registrations s !! k) as [r0|] eqn:E; simpl; [|done].
  intros [= <-]. rewrite Hf. exact (Hwf _ _ E).
Qed.

Lemma process_signup_wf env parsed s :
  store_wf s -> store_wf (snd (process_signup env parsed s)).
Proof.
  intros Hwf. destruct (process_signup_run env parsed s) as (_ & _ & _ & H).
  destruct (registrations s !! _) as [existing|]; destruct H as [_ H].
  - by eapply store_wf_alter; [|exact H|].
  - intros k r. rewrite H, lookup_insert.
    destruct (decide _) as [<-|Hne]; [|apply Hwf]. by intros [= <-].
Qed.

Lemma process_payment_wf env parsed s :
  store_wf s -> store_wf (snd (process_payment env parsed s)).
Proof.
  intros Hwf.
  destruct (process_payment_cases env parsed s) as [[H _]|[k [st [H _]]]].
  - intros j r. rewrite H. apply Hwf.
  - by eapply store_wf_alter; [|exact H|].
Qed.

(** Every session reached from a well-formed store is well-formed. *)
Lemma reachable_wf s0 s : store_wf s0 -> reachable_from s0 s -> store_wf s.
Proof.
  intros H0. induction 1 as [|s s' _ IH Hstep]; [exact H0|].
  destruct Hstep; [by apply process_signup_wf|by apply process_payment_wf].
Qed.

(* ===================================================================== *)
(** * The theorems at concrete requests *)
(* ===================================================================== *)

Lemma s_ann_reachable : reachable_from empty_session s_ann.
Proof. eapply reach_step; [apply reach_start|apply step_signup]. Qed.

Lemma s_ann_bob_reachable : reachable_from empty_session s_ann_bob.
Proof. eapply reach_step; [apply s_ann_reachable|apply step_signup]. Qed.

Lemma s_ann_paid_reachable : reachable_from empty_session s_ann_paid.
Proof. eapply reach_step; [apply s_ann_reachable|apply step_payment]. Qed.

Lemma s_ann_wf : store_wf s_ann.
Proof. exact (reachable_wf _ _ store_wf_empty s_ann_reachable). Qed.

Lemma s_ann_bob_wf : store_wf s_ann_bob.
Proof. exact (reachable_wf _ _ store_wf_empty s_ann_bob_reachable). Qed.

Lemma empty_invariant k r :
  registrations empty_session !! k = Some r -> paid_implies_matched r.
Proof. simpl. by rewrite lookup_empty. Qed.

Lemma paid_implies_matched_invariant_witness :
  reachable_from empty_session s_ann_paid
  /\ exists r, registrations s_ann_paid !! "REG-ANN" = Some r
               /\ paid r = true
               /\ paid_implies_matched r.
Proof.
  split; [exact s_ann_paid_reachable|].
  destruct (paid_implies_matched_invariant empty_session s_ann_paid
              empty_invariant s_ann_paid_reachable) as [Hinv _].
  eexists. split; [vm_compute; reflexivity|]. split; [reflexivity|].
  apply (Hinv "REG-ANN"). vm_compute. reflexivity.
Defined.

Lemma payment_direct_match_witness :
  registrations s_ann !! "REG-ANN" = Some ann_row
  /\ exists s',
       process_payment env_b pay_by_id s_ann =
         ({| success := true;
             pr_registration_id := Some "REG-ANN";
             link_status := Some MATCHED_BY_REGISTRATION_ID;
             is_emergency := false;
             error_message := None |}, s')
       /\ registrations s' =
            <[ "REG-ANN" := _mark_paid pay_by_id 200 MATCHED_BY_REGISTRATION_ID ann_row ]>
              (registrations s_ann)
       /\ length (payments s') = S (length (payments s_ann)).
Proof.
  assert (Hrow : registrations s_ann !! "REG-ANN" = Some ann_row)
    by (vm_compute; reflexivity).
  split; [exact Hrow|].
  destruct (payment_direct_match env_b pay_by_id s_ann "REG-ANN" ann_row
              s_ann_wf eq_refl ltac:(discriminate) Hrow)
    as (s' & Hrun & Hregs & _ & _ & Hpay & _).
  exists s'. split; [exact Hrun|]. split; [exact Hregs|].
  rewrite Hpay, length_app. simpl. lia.
Defined.

Lemma payment_phone_unresolved_witness :
  length (phone_matches "EVT-1" "+14155551234" s_ann_bob) = 2%nat
  /\ exists res s',
       process_payment env_b pay_by_phone s_ann_bob = (res, s')
       /\ registrations s' = registrations s_ann_bob
       /\ link_status res = Some AMBIGUOUS_PHONE_MATCH
       /\ is_emergency res = true
       /\ pr_registration_id res = None.
Proof.
  assert (Hlen : length (phone_matches "EVT-1" "+14155551234" s_ann_bob) = 2%nat)
    by (vm_compute; reflexivity).
  split; [exact Hlen|].
  destruct (payment_phone_unresolved env_b pay_by_phone s_ann_bob "EVT-1" "+14155551234"
              eq_refl ltac:(discriminate) eq_refl ltac:(discriminate)
              (or_introl eq_refl) ltac:(rewrite Hlen; discriminate))
    as (res & s' & Hrun & Hregs & _ & _ & _ & _ & Hem & Hnone & _ & Hamb).
  exists res, s'. split; [exact Hrun|]. split; [exact Hregs|].
  split; [|by split]. apply Hamb. rewrite Hlen. lia.
Defined.

Lemma payment_without_identifiers_rejected_witness :
  process_payment env_b pay_no_identifier s_ann = (rejected_result, s_ann).
Proof.
  exact (proj1 (payment_without_identifiers_rejected env_b pay_no_identifier s_ann
                  eq_refl eq_refl)).
Defined.

(** C4, as stated, fails: the rejected payment is returned with the
    emergency flag set. *)
Lemma rejected_payment_is_flagged_emergency :
  truthy (pp_registration_id pay_no_identifier) = false
  /\ truthy (pp_phone_e164 pay_no_identifier) = false
  /\ success (fst (process_payment env_b pay_no_identifier s_ann)) = false
  /\ is_emergency (fst (process_payment env_b pay_no_identifier s_ann)) <> false.
Proof. repeat split; try reflexivity. vm_compute. discriminate. Qed.

Lemma payment_unknown_registration_id_witness :
  registrations s_ann !! "REG-ZZZ" = None
  /\ exists res s',
       process_payment env_b pay_unknown_id s_ann = (res, s')
       /\ success res = true
       /\ registrations s' =
            <[ "REG-ANN" := _mark_paid pay_unknown_id 200 MATCHED_BY_PHONE ann_row ]>
              (registrations s_ann)
       /\ link_status res = Some MATCHED_BY_PHONE.
Proof.
  assert (Hnone : registrations s_ann !! "REG-ZZZ" = None) by (vm_compute; reflexivity).
  split; [exact Hnone|].
  destruct (payment_unknown_registration_id env_b pay_unknown_id s_ann "REG-ZZZ"
              s_ann_wf eq_refl ltac:(discriminate) Hnone)
    as (res & s' & Hrun & Hok & Hphone & _).
  destruct (Hphone "EVT-1" "+14155551234" eq_refl ltac:(discriminate)
              eq_refl ltac:(discriminate)) as [_ Hone].
  destruct (Hone ann_row ltac:(vm_compute; reflexivity)) as (Hregs & _ & _ & _ & Hres).
  exists res, s'. split; [exact Hrun|]. split; [exact Hok|]. split; [exact Hregs|].
  by rewrite Hres.
Defined.

Lemma resignup_with_id_witness :
  sr_is_new (fst ann_first) = true
  /\ sr_is_new (fst ann_second) = false
  /\ dom (registrations (snd ann_second)) = dom (registrations (snd ann_first))
  /\ size (registrations (snd ann_second)) = 1%nat.
Proof.
  unfold ann_second, ann_first.
  destruct (resignup_with_id env_a env_b signup_ann empty_session "REG-ANN"
              store_wf_empty eq_refl ltac:(discriminate))
    as (r1 & r2 & _ & _ & Hnew & _ & _ & Hdom & _).
  split; [reflexivity|]. split; [exact Hnew|]. split; [exact Hdom|].
  vm_compute. reflexivity.
Defined.

(** C5, as stated, fails: a signup record without a registration id gets a
    fresh id at each application, so the second application reports a new
    registration and the table holds two. *)
Lemma resignup_without_id_creates_two :
  ps_registration_id signup_noid = None
  /\ sr_is_new (fst noid_second) <> false
  /\ size (registrations (snd noid_second)) = 2%nat.
Proof.
  split; [reflexivity|]. split; [vm_compute; discriminate|vm_compute; reflexivity].
Qed.

(* ===================================================================== *)
(** * Stripping and lower-casing *)
(* ===================================================================== *)

Lemma lstrip_starts_nonspace s : starts_nonspace (lstrip s).
Proof.
  induction s as [|c r IH]; simpl; [done|].
  destruct (isspace c) eqn:E; [exact IH|exact E].
Qed.

Lemma lstrip_fixed s : starts_nonspace s -> lstrip s = s.
Proof. destruct s as [|c r]; simpl; [done|]. by intros ->. Qed.

Lemma rstrip_starts_nonspace s : starts_nonspace s -> starts_nonspace (rstrip s).
Proof. destruct s as [|c r]; simpl; [done|]. intros H. by rewrite H. Qed.

Lemma rstrip_idempotent s : rstrip (rstrip s) = rstrip s.
Proof.
  induction s as [|c r IH]; simpl; [done|].
  destruct (isspace c && negb (nonempty (rstrip r))) eqn:E; [done|].
  simpl. by rewrite IH, E.
Qed.

(** [s.strip().strip() == s.strip()] *)
Lemma strip_idempotent s : strip (strip s) = strip s.
Proof.
  unfold strip.
  rewrite (lstrip_fixed (rstrip (lstrip s))).
  - apply rstrip_idempotent.
  - apply rstrip_starts_nonspace, lstrip_starts_nonspace.
Qed.

Lemma lower_char_idempotent c : lower_char (lower_char c) = lower_char c.
Proof. destruct c as [[] [] [] [] [] [] [] []]; reflexivity. Qed.

Lemma lower_idempotent s : lower (lower s) = lower s.
Proof.
  induction s as [|c r IH]; simpl; [done|].
  by rewrite lower_char_idempotent, IH.
Qed.

Lemma nonempty_lower s : nonempty (lower s) = nonempty s.
Proof. by destruct s. Qed.

Lemma opt_nonempty_some s t : opt_nonempty s = Some t -> t = s /\ nonempty s = true.
Proof. unfold opt_nonempty. destruct (nonempty s); [|done]. by intros [= <-]. Qed.

(* ===================================================================== *)
(** * More on the field extractor *)
(* ===================================================================== *)

(** X1. A scalar value normalises to nothing or to a non-empty text without
    surrounding whitespace. *)
Theorem normalize_value_scalar_clean x s :
  _normalize_value (VScalar x) = Some s ->
  nonempty s = true /\ strip s = s.
Proof.
  intros H.
  assert (Hs : exists t, s = strip t /\ nonempty (strip t) = true).
  { destruct x as [|b|n|t]; simpl in H; [done| | |];
      apply opt_nonempty_some in H as [-> Hn]; eauto. }
  destruct Hs as [t [-> Hn]]. split; [exact Hn|apply strip_idempotent].
Qed.

Lemma normalize_value_scalar_clean_witness :
  _normalize_value (VScalar (SStr "  Ann Lee  ")) = Some "Ann Lee"
  /\ nonempty "Ann Lee" = true /\ strip "Ann Lee" = "Ann Lee".
Proof.
  split; [reflexivity|].
  apply (normalize_value_scalar_clean (SStr "  Ann Lee  ")). reflexivity.
Defined.

Lemma index_step_lower proj proj' (f : Field) d :
  proj' (field_lower f) = lower (proj f) ->
  index_step proj' d (field_lower f) = index_step proj d f.
Proof.
  intros H. unfold index_step. by rewrite H, nonempty_lower, lower_idempotent.
Qed.

Lemma build_index_lower proj proj' l :
  (forall f, proj' (field_lower f) = lower (proj f)) ->
  build_index proj' (map field_lower l) = build_index proj l.
Proof.
  intros H. unfold build_index. generalize (∅ : gmap string Value).
  induction l as [|f rest IH]; intros d; simpl; [done|].
  by rewrite (index_step_lower proj proj' f d (H f)), IH.
Qed.

Lemma search_candidates_lower by_key by_label cands :
  search_candidates by_key by_label (map lower cands)
  = search_candidates by_key by_label cands.
Proof.
  induction cands as [|c rest IH]; simpl; [done|].
  by rewrite lower_idempotent, IH.
Qed.

Lemma field_map_get_lower field_map name :
  field_map_get (field_map_lower field_map) name = map lower (field_map_get field_map name).
Proof.
  induction field_map as [|[n cands] rest IH]; simpl; [done|].
  by destruct (String.eqb n name).
Qed.

(** X2. Single-field extraction is insensitive to case: writing the keys and
    labels of the submission and the candidates of the mapping table in lower
    case does not change what is extracted. *)
Theorem extract_field_value_case_insensitive l logical_name field_map :
  extract_field_value (map field_lower l) logical_name (field_map_lower field_map)
  = extract_field_value l logical_name field_map.
Proof.
  unfold extract_field_value.
  rewrite field_map_get_lower.
  rewrite (build_index_lower f_key f_key), (build_index_lower f_label f_label) by done.
  destruct (field_map_get field_map logical_name) as [|c rest]; [done|].
  change (map lower (c :: rest)) with (lower c :: map lower rest).
  cbv iota. by rewrite <- (search_candidates_lower _ _ (c :: rest)).
Qed.

(** X3. When no submitted field has a candidate of the logical name as its
    key or label, up to case, nothing is extracted; an empty submission is a
    case of this. *)
Theorem extract_field_value_absent l logical_name field_map :
  Forall (fun c => last_value f_key (lower c) l = None
                   /\ last_value f_label (lower c) l = None)
    (field_map_get field_map logical_name) ->
  extract_field_value l logical_name field_map = None.
Proof.
  intros H. unfold extract_field_value.
  destruct (field_map_get field_map logical_name) as [|c rest] eqn:E; [done|].
  rewrite <- (app_nil_r (c :: rest)).
  rewrite search_candidates_skip; [done|].
  eapply Forall_impl; [exact H|]. intros x [? ?]. by rewrite !build_index_lookup.
Qed.

Lemma extract_field_value_absent_witness :
  extract_field_value [] "phone" PAYMENT_FIELD_MAP = None
  /\ extract_field_value [label_only_field] "email" SIGNUP_FIELD_MAP = None.
Proof.
  split; apply extract_field_value_absent; vm_compute;
    repeat (apply List.Forall_cons; [split; reflexivity|]); apply List.Forall_nil.
Defined.

Lemma last_value_app_last proj k l f :
  nonempty (proj f) = true -> lower (proj f) = k ->
  last_value proj k (l ++ [f]) = Some (f_value f).
Proof.
  intros Hn Hk. induction l as [|g rest IH]; simpl.
  - by rewrite Hn, Hk, String.eqb_refl.
  - by rewrite IH.
Qed.

(** X4. Of several submitted fields with the same key the last one counts:
    a field appended to a submission, whose key is the first candidate of a
    logical name up to case, decides the extracted value. *)
Theorem extract_field_value_last_key_wins l f logical_name field_map c rest :
  field_map_get field_map logical_name = c :: rest ->
  f_key f <> EmptyString ->
  lower (f_key f) = lower c ->
  extract_field_value (l ++ [f]) logical_name field_map = _normalize_value (f_value f).
Proof.
  intros Hmap Hne Hk. unfold extract_field_value. rewrite Hmap. simpl.
  rewrite build_index_lookup, (last_value_app_last f_key (lower c) l f); [done| |done].
  by destruct (f_key f).
Qed.

Lemma extract_field_value_last_key_wins_witness :
  extract_field_value
    ([ {| f_key := "phone"; f_label := "Phone"; f_value := VScalar (SStr "111");
          f_type := "INPUT_PHONE_NUMBER"; f_options := [] |} ]
     ++ [ {| f_key := "PHONE"; f_label := "Other"; f_value := VScalar (SStr " 222 ");
             f_type := "INPUT_PHONE_NUMBER"; f_options := [] |} ])
    "phone" PAYMENT_FIELD_MAP
  = Some "222".
Proof.
  rewrite (extract_field_value_last_key_wins _ _ "phone" PAYMENT_FIELD_MAP "phone"
             ["Phone"; "phone_number"; "Phone Number"; "Mobile";
              "What's the phone number you signed up with?"]);
    [reflexivity|reflexivity|discriminate|reflexivity].
Defined.

Lemma extract_loop_invariant (P : string -> AttrValue -> Prop) int_of_str by_key items :
  (forall name v, P name (attr_value name v)) ->
  forall result r,
    (forall name, P name (getattr result name)) ->
    extract_loop int_of_str by_key items result = Ok r ->
    forall name, P name (getattr r name).
Proof.
  intros Hattr. induction items as [|[attr_name keys] rest IH]; intros result r Hinv; simpl.
  - by intros [= <-].
  - destruct (first_field by_key keys) as [fld|]; [|by apply IH].
    destruct (typed_value int_of_str fld) as [v|e]; simpl; [|done].
    apply IH. intros name. unfold getattr, setattr.
    destruct (decide (attr_name = name)) as [->|Hne].
    + rewrite lookup_insert_eq. simpl. apply Hattr.
    + rewrite lookup_insert_ne by done. apply Hinv.
Qed.

Lemma default_getattr (items : FieldMap) n :
  getattr (list_to_map (map (fun item => (fst item, ANone)) items)) n = ANone.
Proof.
  unfold getattr. destruct (_ !! n) as [v|] eqn:E; [|done].
  apply default_lookup in E. by subst v.
Qed.

(** X5. Whatever is submitted, the profile record that full-profile
    extraction returns holds integers or nothing in its "*_score" attributes
    and text or nothing in all the others. *)
Theorem extract_form_fields_typed int_of_str l r name :
  extract_form_fields int_of_str l = Ok r ->
  (endswith "_score" name = true -> int_or_none (getattr r name))
  /\ (endswith "_score" name = false -> str_or_none (getattr r name)).
Proof.
  unfold extract_form_fields, ExtractedFormFields_default. intros H.
  apply (extract_loop_invariant
           (fun name v => (endswith "_score" name = true -> int_or_none v)
                          /\ (endswith "_score" name = false -> str_or_none v))
           int_of_str (fields_by_key l) FORM_FIELD_MAP) with (r := r)
    (result := list_to_map (map (fun item => (fst item, ANone)) FORM_FIELD_MAP));
    [| |exact H].
  - intros n v. unfold attr_value. split; intros ->; destruct v; try done.
    simpl. by destruct (negb (n0 =? 0)).
  - intros n. by rewrite default_getattr.
Qed.

Lemma extract_form_fields_typed_witness :
  match extract_form_fields (fun _ => None) profile_fields with
  | Ok r => str_or_none (getattr r "first_name")
            /\ int_or_none (getattr r "creative_expression_score")
  | Raise _ => False
  end.
Proof.
  destruct (extract_form_fields_ok (fun _ => None) profile_fields) as [r E].
  { unfold profile_fields.
    repeat (apply List.Forall_cons; [reflexivity|]). apply List.Forall_nil. }
  rewrite E. split.
  - apply (extract_form_fields_typed _ _ r "first_name" E). reflexivity.
  - apply (extract_form_fields_typed _ _ r "creative_expression_score" E). reflexivity.
Defined.

(* ===================================================================== *)
(** * More on the phone normaliser *)
(* ===================================================================== *)

Lemma nonempty_strip s : nonempty (strip s) = true -> nonempty s = true.
Proof. by destruct s. Qed.

Section PhoneNormalizerMore.

Variable PhoneNumber : Type.
Variable parse : string -> string -> option PhoneNumber.
Variable is_valid_number : PhoneNumber -> bool.
Variable format_e164 : PhoneNumber -> string.

Local Abbreviation normalize :=
  (Phone.normalize_phone PhoneNumber parse is_valid_number format_e164).
Local Abbreviation validate :=
  (Types._validate PhoneNumber parse is_valid_number format_e164).

(** X6. Whitespace around a phone number does not matter: a string and its
    stripped form normalise alike, whatever the phone library does. *)
Theorem normalize_phone_ignores_outer_space x region :
  normalize (strip x) region = normalize x region.
Proof.
  unfold Phone.normalize_phone. rewrite strip_idempotent.
  destruct (nonempty (strip x)) eqn:E; simpl.
  - by rewrite (nonempty_strip _ E).
  - by rewrite orb_true_r.
Qed.

(** X7. Blank input is refused before the phone library is consulted: on an
    empty or whitespace-only string [normalize_phone] gives [None] under
    every region, [is_valid_phone] is false, and [PhoneNumber._validate]
    raises [ValueError], whatever the library would have answered. *)
Theorem phone_number_validate_blank v :
  all_space v = true ->
  (forall region, normalize v region = None)
  /\ (forall region,
        Phone.is_valid_phone PhoneNumber parse is_valid_number format_e164 v region
        = false)
  /\ validate v = Raise ValueError.
Proof.
  intros Hv.
  assert (Hnone : forall region, normalize v region = None).
  { intros region. unfold Phone.normalize_phone.
    rewrite (strip_all_space _ Hv). simpl. by rewrite orb_true_r. }
  split; [exact Hnone|]. split.
  - intros region. unfold Phone.is_valid_phone. by rewrite Hnone.
  - unfold Types._validate. by rewrite Hnone.
Qed.

End PhoneNormalizerMore.

Lemma phone_number_validate_blank_witness :
  Types._validate unit (fun _ _ => Some tt) (fun _ => true) (fun _ => "+14155551234")
    "   " = Raise ValueError
  /\ Types._validate unit (fun _ _ => Some tt) (fun _ => true) (fun _ => "+14155551234")
       " 4155551234 " = Ok "+14155551234".
Proof.
  split; [|reflexivity].
  apply (phone_number_validate_blank unit (fun _ _ => Some tt) (fun _ => true)
           (fun _ => "+14155551234") "   ").
  reflexivity.
Defined.

(* ===================================================================== *)
(** * More on the signature verifier *)
(* ===================================================================== *)

Lemma hexlify_nonempty b : b <> [] -> Verify.hexlify b <> EmptyString.
Proof. destruct b as [|x r]; [done|]. intros _. simpl. discriminate. Qed.

(** X8. A request signed with the secret of its form kind passes: with
    verification on and the secret configured, the hexadecimal HMAC of the
    body under that secret is accepted as the header. *)
Theorem verify_accepts_own_signature hmac_sha256 settings body form_type secret :
  Config.verify_tally_signature settings = true ->
  form_secret settings form_type = Some secret ->
  secret <> EmptyString ->
  hmac_sha256 (Verify.encode_utf8 secret) body <> [] ->
  Verify.verify_tally_signature hmac_sha256 settings body
    (Some (Verify.compute_hmac_sha256 hmac_sha256 body secret)) form_type
  = Ok (true, None).
Proof.
  intros Hon Hsecret Hne Hdigest.
  destruct (verify_enabled_ascii hmac_sha256 settings body
              (Some (Verify.compute_hmac_sha256 hmac_sha256 body secret))
              form_type secret Hon Hsecret) as (_ & _ & H).
  destruct (H _ Hne eq_refl) as [Hok _]; [| |by apply Hok].
  - by apply hexlify_nonempty.
  - apply hexlify_ascii.
Qed.

Lemma verify_accepts_own_signature_witness :
  Verify.verify_tally_signature concat_mac settings_verifying []
    (Some (Verify.compute_hmac_sha256 concat_mac [] "payment-secret")) "payment"
  = Ok (true, None).
Proof.
  apply (verify_accepts_own_signature concat_mac settings_verifying [] "payment"
           "payment-secret"); [reflexivity|reflexivity|discriminate|].
  vm_compute. discriminate.
Defined.

(* ===================================================================== *)
(** * What the two reconcilers leave alone *)
(* ===================================================================== *)

(** The audit tables after a payment. *)
Lemma process_payment_tables env parsed s :
  let out := process_payment env parsed s in
  signups (snd out) = signups s
  /\ ((success (fst out) = false /\ snd out = s)
      \/ (success (fst out) = true
          /\ payments (snd out) = payments s ++ [audit_row env parsed s])).
Proof.
  assert (Hphone : forall s0, signups s0 = signups s -> payments s0 = payments s ->
    let out := match_by_phone env parsed s0 in
    signups (snd out) = signups s
    /\ success (fst out) = true
    /\ payments (snd out) = payments s ++ [audit_row env parsed s]).
  { intros s0 Hs Hp. cbn zeta. unfold match_by_phone.
    assert (Hrow : audit_row env parsed s0 = audit_row env parsed s).
    { unfold audit_row. by rewrite Hs. }
    destruct (truthy (pp_event_id parsed) && truthy (pp_phone_e164 parsed)).
    - unfold bind, _find_by_event_and_phone, select_by_event_phone, bind, log. simpl.
      match goal with |- context [filter ?P ?l] => destruct (filter P l) as [|r [|r2 rest]] end.
      + rewrite orphan_run. simpl. unfold audit_row at 1. simpl.
        fold (audit_row env parsed s0). by rewrite Hs, Hp, Hrow.
      + unfold update_registration, set_registrations, ret. simpl.
        rewrite payment_log_run. simpl. unfold audit_row at 1. simpl.
        fold (audit_row env parsed s0). by rewrite Hs, Hp, Hrow.
      + unfold ret. rewrite payment_log_run. simpl. unfold audit_row at 1. simpl.
        fold (audit_row env parsed s0). by rewrite Hs, Hp, Hrow.
    - rewrite orphan_run. simpl. by rewrite Hs, Hp, Hrow. }
  cbn zeta. unfold process_payment.
  destruct (negb (truthy (pp_registration_id parsed)) && negb (truthy (pp_phone_e164 parsed))).
  { split; [done|]. left. by split. }
  destruct (truthy (pp_registration_id parsed)).
  - unfold bind at 1. unfold session_get, bind, log. simpl.
    destruct (registrations s !! default EmptyString (pp_registration_id parsed)) as [r|].
    + unfold update_registration, set_registrations, ret. simpl.
      rewrite payment_log_run. simpl. split; [done|]. right. by split.
    + destruct (Hphone {| registrations := registrations s; signups := signups s;
                          payments := payments s;
                          oplog := oplog s ++ [OpGetRegistration
                                     (default EmptyString (pp_registration_id parsed))] |}
                  eq_refl eq_refl) as (H1 & H2 & H3).
      split; [exact H1|]. right. by split.
  - destruct (Hphone s eq_refl eq_refl) as (H1 & H2 & H3).
    split; [exact H1|]. right. by split.
Qed.

Lemma mark_paid_signup_side parsed t st r :
  signup_side (_mark_paid parsed t st r) = signup_side r.
Proof. reflexivity. Qed.

(** X9. A payment never creates or removes a registration, never writes to
    the signup audit table, and never changes the signup side of a
    registration (its id, event, contact fields, signup payload and time,
    creation time). *)
Theorem process_payment_keeps_signup_side env parsed s :
  dom (registrations (snd (process_payment env parsed s))) = dom (registrations s)
  /\ signups (snd (process_payment env parsed s)) = signups s
  /\ (forall k r, registrations s !! k = Some r ->
        exists r', registrations (snd (process_payment env parsed s)) !! k = Some r'
                   /\ signup_side r' = signup_side r).
Proof.
  destruct (process_payment_tables env parsed s) as [Hsu _].
  destruct (process_payment_cases env parsed s) as [[H _]|[k' [st [H _]]]];
    cbn zeta in *; rewrite H.
  - split; [done|]. split; [exact Hsu|]. eauto.
  - split; [apply dom_alter_L|]. split; [exact Hsu|].
    intros k r Hk. rewrite lookup_alter.
    destruct (decide (k' = k)) as [->|Hne]; [|eauto].
    rewrite Hk. simpl. eauto using mark_paid_signup_side.
Qed.

(** The signup audit table after a signup. *)
Lemma process_signup_audit env parsed s :
  exists row, signups (snd (process_signup env parsed s)) = signups s ++ [row].
Proof.
  unfold process_signup. unfold bind at 1. unfold session_get, bind, log. simpl.
  destruct (registrations s !! _) as [existing|];
    unfold SignupService._log_submission, update_registration, session_add_registration,
      session_add_signup, set_registrations, bind, ret, log; simpl; eauto.
Qed.

Lemma process_signup_rows env parsed s k r :
  registrations s !! k = Some r ->
  exists r', registrations (snd (process_signup env parsed s)) !! k = Some r'
             /\ payment_side r' = payment_side r
             /\ registration_id r' = registration_id r
             /\ created_at r' = created_at r.
Proof.
  destruct (process_signup_run env parsed s) as (_ & _ & _ & H).
  destruct (registrations s !! _) as [existing|] eqn:E; destruct H as [_ ->]; intros Hk.
  - rewrite lookup_alter.
    destruct (decide (registration_id existing = k)) as [->|Hne]; [|eauto].
    rewrite Hk. simpl. eauto.
  - rewrite lookup_insert. destruct (decide _) as [Heq|Hne]; [|eauto].
    rewrite Heq, Hk in E. discriminate E.
Qed.

(** X10. A signup, of whatever record, writes one row to the signup audit
    table and none to the payment audit table, keeps every registration that
    was there, and leaves the payment side, the id and the creation time of
    each of them as they were. *)
Theorem process_signup_keeps_payment_side env parsed s :
  (exists row, signups (snd (process_signup env parsed s)) = signups s ++ [row])
  /\ payments (snd (process_signup env parsed s)) = payments s
  /\ (forall k r, registrations s !! k = Some r ->
        exists r', registrations (snd (process_signup env parsed s)) !! k = Some r'
                   /\ payment_side r' = payment_side r
                   /\ registration_id r' = registration_id r
                   /\ created_at r' = created_at r).
Proof.
  split; [apply process_signup_audit|].
  destruct (process_signup_run env parsed s) as (_ & _ & Hpay & _).
  split; [exact Hpay|]. apply process_signup_rows.
Qed.

(** One request keeps the registrations, their ids and creation times, and
    what is paid. *)
Lemma step_keeps_registrations s s' :
  step s s' ->
  forall k r, registrations s !! k = Some r ->
    exists r', registrations s' !! k = Some r'
               /\ registration_id r' = registration_id r
               /\ created_at r' = created_at r
               /\ (paid r = true -> paid r' = true).
Proof.
  intros [env parsed s0|env parsed s0] k r Hk.
  - destruct (process_signup_rows env parsed s0 k r Hk)
      as (r' & H1 & H2 & H3 & H4).
    exists r'. repeat split; try done. intros Hp.
    assert (paid r' = paid r) by (by injection H2). congruence.
  - destruct (process_payment_cases env parsed s0) as [[H _]|[k' [st [H _]]]];
      cbn zeta in *; rewrite H; [eauto|].
    rewrite lookup_alter. destruct (decide (k' = k)) as [->|Hne]; [|eauto].
    rewrite Hk. simpl. eauto.
Qed.

(* ===================================================================== *)
(** * Invariants over sequences of requests *)
(* ===================================================================== *)

Lemma step_audit_prefix s s' :
  step s s' -> signups s `prefix_of` signups s' /\ payments s `prefix_of` payments s'.
Proof.
  intros [env parsed s0|env parsed s0].
  - destruct (process_signup_audit env parsed s0) as [row ->].
    destruct (process_signup_run env parsed s0) as (_ & _ & -> & _).
    split; [by apply prefix_app_r|done].
  - destruct (process_payment_tables env parsed s0) as [-> [[_ ->]|[_ ->]]];
      split; try done; by apply prefix_app_r.
Qed.

(** X11. The two audit tables are append-only: after any sequence of
    signups and payments each of them still begins with the rows it held
    before, unchanged and in the same order. *)
Theorem audit_tables_append_only s0 s :
  reachable_from s0 s ->
  signups s0 `prefix_of` signups s /\ payments s0 `prefix_of` payments s.
Proof.
  induction 1 as [|s s' _ [IH1 IH2] Hstep]; [done|].
  destruct (step_audit_prefix _ _ Hstep) as [H1 H2].
  split; by etrans.
Qed.

Lemma s_ann_paid_from_s_ann : reachable_from s_ann s_ann_paid.
Proof. eapply reach_step; [apply reach_start|apply step_payment]. Qed.

Lemma audit_tables_append_only_witness :
  signups s_ann `prefix_of` signups s_ann_paid
  /\ payments s_ann `prefix_of` payments s_ann_paid.
Proof. exact (audit_tables_append_only s_ann s_ann_paid s_ann_paid_from_s_ann). Defined.

(** X12. No request deletes a registration or changes its id or creation
    time, and a registration that is paid stays paid: all of this holds
    across any sequence of signups and payments. *)
Theorem registrations_persist s0 s :
  reachable_from s0 s ->
  forall k r0, registrations s0 !! k = Some r0 ->
    exists r, registrations s !! k = Some r
              /\ registration_id r = registration_id r0
              /\ created_at r = created_at r0
              /\ (paid r0 = true -> paid r = true).
Proof.
  induction 1 as [|s s' _ IH Hstep]; intros k r0 Hk; [by eauto|].
  destruct (IH k r0 Hk) as (r & Hr & Hid & Hc & Hp).
  destruct (step_keeps_registrations _ _ Hstep k r Hr) as (r' & Hr' & Hid' & Hc' & Hp').
  exists r'. split; [exact Hr'|]. split; [congruence|]. split; [congruence|]. auto.
Qed.

Lemma s_resigned_from_paid : reachable_from s_ann_paid s_ann_paid_resigned.
Proof. eapply reach_step; [apply reach_start|apply step_signup]. Qed.

Lemma registrations_persist_witness :
  exists r0, registrations s_ann_paid !! "REG-ANN" = Some r0
             /\ paid r0 = true
             /\ exists r, registrations s_ann_paid_resigned !! "REG-ANN" = Some r
                          /\ paid r = true.
Proof.
  eexists. split; [vm_compute; reflexivity|]. split; [reflexivity|].
  destruct (registrations_persist s_ann_paid s_ann_paid_resigned s_resigned_from_paid
              "REG-ANN" _ ltac:(vm_compute; reflexivity)) as (r & Hr & _ & _ & Hp).
  exists r. split; [exact Hr|]. apply Hp. reflexivity.
Defined.

Lemma chosen_id_nonempty (o : option string) (gen : string) :
  gen <> EmptyString ->
  (if negb (truthy o) then gen else default EmptyString o) <> EmptyString.
Proof.
  intros Hgen. destruct o as [[|c r]|]; simpl; [exact Hgen|discriminate|exact Hgen].
Qed.

Lemma generated_registration_id_nonempty env : generated_registration_id env <> EmptyString.
Proof. unfold generated_registration_id. simpl. discriminate. Qed.

Lemma generated_event_id_nonempty env n : generated_event_id env n <> EmptyString.
Proof. unfold generated_event_id. simpl. discriminate. Qed.

Lemma step_ids_present s s' : step s s' -> ids_present s -> ids_present s'.
Proof.
  intros [env parsed s0|env parsed s0] Hinv k r.
  - destruct (process_signup_run env parsed s0) as (_ & _ & _ & H).
    destruct (registrations s0 !! _) as [existing|] eqn:E; destruct H as [_ ->].
    + rewrite lookup_alter.
      destruct (decide (registration_id existing = k)) as [<-|Hne]; [|apply Hinv].
      destruct (registrations s0 !! registration_id existing) as [r0|] eqn:E0;
        simpl; [|done].
      intros [= <-]. simpl. split; [exact (proj1 (Hinv _ _ E0))|].
      apply chosen_id_nonempty, generated_event_id_nonempty.
    + rewrite lookup_insert. destruct (decide _) as [Heq|Hne]; [|apply Hinv].
      intros [= <-]. simpl. split.
      * apply chosen_id_nonempty, generated_registration_id_nonempty.
      * apply chosen_id_nonempty, generated_event_id_nonempty.
  - destruct (process_payment_cases env parsed s0) as [[H _]|[k' [st [H _]]]];
      cbn zeta in *; rewrite H; [apply Hinv|].
    rewrite lookup_alter. destruct (decide (k' = k)) as [->|Hne]; [|apply Hinv].
    destruct (registrations s0 !! k) as [r0|] eqn:E0; simpl; [|done].
    intros [= <-]. exact (Hinv _ _ E0).
Qed.

(** X13. Every registration has a non-empty registration id and a non-empty
    event id: this holds in the empty store and is kept by every signup and
    payment, since an absent id is replaced by a generated one. *)
Theorem reachable_ids_present s0 s :
  ids_present s0 -> reachable_from s0 s -> ids_present s.
Proof.
  intros H0. induction 1 as [|s s' _ IH Hstep]; [exact H0|].
  by apply (step_ids_present s s').
Qed.

Lemma ids_present_empty : ids_present empty_session.
Proof. intros k r H. simpl in H. by rewrite lookup_empty in H. Qed.

Lemma noid_second_reachable : reachable_from empty_session (snd noid_second).
Proof.
  eapply reach_step; [eapply reach_step; [apply reach_start|apply step_signup]|].
  apply step_signup.
Qed.

Lemma reachable_ids_present_witness :
  size (registrations (snd noid_second)) = 2%nat /\ ids_present (snd noid_second).
Proof.
  split; [vm_compute; reflexivity|].
  exact (reachable_ids_present empty_session (snd noid_second)
           ids_present_empty noid_second_reachable).
Defined.

(* ===================================================================== *)
(** * How requests compose *)
(* ===================================================================== *)

(** The phone query after one row has been rewritten without touching its
    event id and phone: if it returned that row alone before, it returns the
    rewritten row alone. *)
Lemma phone_matches_rewritten event phone s s' k r r' :
  registrations s !! k = Some r ->
  registrations s' = <[k := r']> (registrations s) ->
  event_id r' = event_id r -> phone_e164 r' = phone_e164 r ->
  phone_matches event phone s = [r] ->
  phone_matches event phone s' = [r'].
Proof.
  intros Hk Hregs He Hp Hm. unfold phone_matches in *. rewrite Hregs.
  set (P := fun x : Registration => event_id x = event /\ phone_e164 x = Some phone) in *.
  assert (HPr : P r).
  { assert (Hin : r ∈ filter P (map_to_list (registrations s)).*2) by (rewrite Hm; by left).
    by apply list_elem_of_filter in Hin as [? _]. }
  assert (HPr' : P r').
  { unfold P in *. by rewrite He, Hp. }
  set (others := (map_to_list (delete k (registrations s))).*2).
  assert (Hold : filter P (r :: others) ≡ₚ [r]).
  { rewrite <- Hm. apply filter_Permutation. unfold others.
    change (r :: (map_to_list (delete k (registrations s))).*2)
      with (((k, r) :: map_to_list (delete k (registrations s))).*2).
    apply fmap_Permutation. by apply map_to_list_delete. }
  rewrite filter_cons_True in Hold by done.
  assert (Hnone : filter P others = []).
  { apply Permutation_length in Hold. simpl in Hold.
    destruct (filter P others); [done|simpl in Hold; lia]. }
  apply Permutation_singleton_r.
  transitivity (filter P (r' :: others)).
  - apply filter_Permutation. unfold others.
    change (r' :: (map_to_list (delete k (registrations s))).*2)
      with (((k, r') :: map_to_list (delete k (registrations s))).*2).
    apply fmap_Permutation. rewrite <- insert_delete_eq.
    apply map_to_list_insert, lookup_delete_eq.
  - by rewrite filter_cons_True, Hnone.
Qed.

(** The phone query after a row has been inserted under a fresh key: a row
    with the event id and phone asked for is the only match when there was
    none before. *)
Lemma phone_matches_inserted event phone s s' k r :
  registrations s !! k = None ->
  registrations s' = <[k := r]> (registrations s) ->
  event_id r = event -> phone_e164 r = Some phone ->
  phone_matches event phone s = [] ->
  phone_matches event phone s' = [r].
Proof.
  intros Hk Hregs He Hp Hm. unfold phone_matches in *. rewrite Hregs.
  set (P := fun x : Registration => event_id x = event /\ phone_e164 x = Some phone) in *.
  apply Permutation_singleton_r.
  transitivity (filter P (r :: (map_to_list (registrations s)).*2)).
  - apply filter_Permutation.
    change (r :: (map_to_list (registrations s)).*2)
      with (((k, r) :: map_to_list (registrations s)).*2).
    apply fmap_Permutation. by apply map_to_list_insert.
  - rewrite filter_cons_True by done. by rewrite Hm.
Qed.

Lemma phone_matches_same_registrations event phone s s' :
  registrations s' = registrations s ->
  phone_matches event phone s' = phone_matches event phone s.
Proof. unfold phone_matches. by intros ->. Qed.

Lemma mark_paid_twice parsed t st r :
  _mark_paid parsed t st (_mark_paid parsed t st r) = _mark_paid parsed t st r.
Proof. reflexivity. Qed.

(** The phone step run again on the registrations it produced. *)
Lemma match_by_phone_repeat env parsed s1 s2 :
  store_wf s1 ->
  registrations s2 = registrations (snd (match_by_phone env parsed s1)) ->
  fst (match_by_phone env parsed s2) = fst (match_by_phone env parsed s1)
  /\ registrations (snd (match_by_phone env parsed s2))
     = registrations (snd (match_by_phone env parsed s1)).
Proof.
  intros Hwf Hregs.
  destruct (truthy (pp_event_id parsed) && truthy (pp_phone_e164 parsed)) eqn:Hboth.
  - apply andb_true_iff in Hboth as [Hte Htp].
    destruct (pp_event_id parsed) as [e|] eqn:He; [|done].
    destruct (pp_phone_e164 parsed) as [p|] eqn:Hp; [|done].
    assert (Hne : e <> EmptyString) by (by destruct e).
    assert (Hnp : p <> EmptyString) by (by destruct p).
    revert Hregs.
    rewrite (match_by_phone_run env parsed s1 e p He Hne Hp Hnp),
      (match_by_phone_run env parsed s2 e p He Hne Hp Hnp). cbn zeta.
    destruct (phone_matches e p s1) as [|r [|r2 rest]] eqn:Hm; simpl; intros Hregs.
    + rewrite (phone_matches_same_registrations e p s1 s2 Hregs), Hm. by simpl.
    + assert (Hin : r ∈ phone_matches e p s1) by (rewrite Hm; by left).
      apply phone_matches_elem in Hin as [[k Hk] _].
      pose proof (Hwf _ _ Hk) as Hkey. subst k.
      rewrite (alter_found _ _ _ _ Hk) in Hregs.
      rewrite (phone_matches_rewritten e p s1 s2 (registration_id r) r
                 (_mark_paid parsed (now env) MATCHED_BY_PHONE r) Hk Hregs
                 eq_refl eq_refl Hm).
      simpl. split; [done|].
      rewrite Hregs, (alter_found _ _ _ _ Hk).
      rewrite (alter_found _ _ _ (_mark_paid parsed (now env) MATCHED_BY_PHONE r)
                 (lookup_insert_eq _ _ _)).
      rewrite mark_paid_twice. apply insert_insert_eq.
    + rewrite (phone_matches_same_registrations e p s1 s2 Hregs), Hm. by simpl.
  - revert Hregs. rewrite !(match_by_phone_skipped _ _ _ Hboth), !orphan_run. simpl.
    by intros ->.
Qed.

(** X14. Processing the same payment a second time, at the same time of
    day, changes nothing but the audit table: on a store keyed by primary
    key the second run returns the result of the first and leaves every
    registration as the first run left it. *)
Theorem payment_repeat_same_outcome env parsed s :
  store_wf s ->
  fst (process_payment env parsed (snd (process_payment env parsed s)))
    = fst (process_payment env parsed s)
  /\ registrations (snd (process_payment env parsed (snd (process_payment env parsed s))))
     = registrations (snd (process_payment env parsed s)).
Proof.
  intros Hwf.
  destruct (truthy (pp_registration_id parsed)) eqn:Hid.
  - assert (Hrid : exists rid, pp_registration_id parsed = Some rid /\ rid <> EmptyString).
    { destruct (pp_registration_id parsed) as [[|c r]|]; try done. eauto. }
    destruct Hrid as [rid [Hrid Hne]].
    assert (Hsome : truthy (pp_registration_id parsed) = true
                    \/ truthy (pp_phone_e164 parsed) = true) by (by left).
    destruct (registrations s !! rid) as [r|] eqn:Hr.
    + (* settled by primary key, both times *)
      assert (Hdirect : forall s0 r0, store_wf s0 -> registrations s0 !! rid = Some r0 ->
        fst (process_payment env parsed s0)
          = {| success := true; pr_registration_id := Some rid;
               link_status := Some MATCHED_BY_REGISTRATION_ID;
               is_emergency := false; error_message := None |}
        /\ registrations (snd (process_payment env parsed s0))
           = <[rid := _mark_paid parsed (now env) MATCHED_BY_REGISTRATION_ID r0]>
               (registrations s0)).
      { intros s0 r0 Hwf0 Hr0. unfold process_payment.
        rewrite Hrid, (truthy_some _ Hne). simpl.
        unfold bind, session_get, log, update_registration, set_registrations, ret. simpl.
        rewrite Hr0, payment_log_run. simpl. rewrite (Hwf0 _ _ Hr0).
        split; [done|]. by apply alter_found. }
      destruct (Hdirect s r Hwf Hr) as [Hres1 Hregs1].
      assert (Hr1 : registrations (snd (process_payment env parsed s)) !! rid
                    = Some (_mark_paid parsed (now env) MATCHED_BY_REGISTRATION_ID r)).
      { by rewrite Hregs1, lookup_insert_eq. }
      destruct (Hdirect _ _ (process_payment_wf env parsed s Hwf) Hr1) as [Hres2 Hregs2].
      split; [congruence|].
      rewrite Hregs2, Hregs1, mark_paid_twice. apply insert_insert_eq.
    + (* the lookup misses, both times *)
      assert (Hmiss : forall s0, registrations s0 !! rid = None -> direct_miss parsed s0).
      { intros s0 H0. right. by rewrite Hrid. }
      assert (Hr1 : registrations (snd (process_payment env parsed s)) !! rid = None).
      { apply not_elem_of_dom.
        destruct (process_payment_cases env parsed s) as [[H _]|[k' [st [H _]]]];
          cbn zeta in *; rewrite H; [|rewrite dom_alter_L]; by apply not_elem_of_dom. }
      revert Hr1.
      rewrite (payment_falls_through env parsed s Hsome (Hmiss _ Hr)).
      intros Hr1.
      rewrite (payment_falls_through env parsed _ Hsome (Hmiss _ Hr1)).
      apply match_by_phone_repeat; [exact Hwf|reflexivity].
  - destruct (truthy (pp_phone_e164 parsed)) eqn:Hph.
    + assert (Hsome : truthy (pp_registration_id parsed) = true
                      \/ truthy (pp_phone_e164 parsed) = true) by (by right).
      assert (Hmiss : forall s0, direct_miss parsed s0) by (intros s0; by left).
      rewrite (payment_falls_through env parsed s Hsome (Hmiss _)).
      rewrite (payment_falls_through env parsed _ Hsome (Hmiss _)).
      apply match_by_phone_repeat; [exact Hwf|reflexivity].
    + assert (Hrun : forall s0, process_payment env parsed s0 = (rejected_result, s0)).
      { intros s0. unfold process_payment. by rewrite Hid, Hph. }
      by rewrite !Hrun.
Qed.

Lemma payment_repeat_same_outcome_witness :
  fst (process_payment env_b pay_by_phone (snd (process_payment env_b pay_by_phone s_ann)))
    = fst (process_payment env_b pay_by_phone s_ann)
  /\ registrations
       (snd (process_payment env_b pay_by_phone (snd (process_payment env_b pay_by_phone s_ann))))
     = registrations (snd (process_payment env_b pay_by_phone s_ann)).
Proof. exact (payment_repeat_same_outcome env_b pay_by_phone s_ann s_ann_wf). Defined.

(** X15. A signup followed by a payment that names no registration id but
    carries the signup's event id and canonical phone: when the signup
    created its registration and no other registration has that event and
    phone, the payment is matched by phone to the new registration, which
    becomes paid. *)
Theorem signup_then_phone_payment env1 env2 signup payment s rid e p :
  ps_registration_id signup = Some rid -> rid <> EmptyString ->
  registrations s !! rid = None ->
  ps_event_id signup = Some e -> e <> EmptyString ->
  ps_phone_e164 signup = Some p -> p <> EmptyString ->
  phone_matches e p s = [] ->
  truthy (pp_registration_id payment) = false ->
  pp_event_id payment = Some e ->
  pp_phone_e164 payment = Some p ->
  let s1 := snd (process_signup env1 signup s) in
  let out := process_payment env2 payment s1 in
  fst out = {| success := true;
               pr_registration_id := Some rid;
               link_status := Some MATCHED_BY_PHONE;
               is_emergency := false;
               error_message := None |}
  /\ exists r, registrations (snd out) !! rid = Some r
               /\ paid r = true
               /\ payment_link_status r = "matched_by_phone"
               /\ paid_at r = Some (now env2).
Proof.
  intros Hrid Hne Hfresh He Hnee Hp Hnp Hnone Hnoid Hpe Hpp. cbn zeta.
  destruct (process_signup_run env1 signup s) as (_ & _ & _ & H).
  rewrite (signup_id_given env1 signup rid Hrid Hne), Hfresh in H.
  destruct H as [_ Hregs].
  set (s1 := snd (process_signup env1 signup s)) in *.
  set (row := signup_create env1 signup rid _) in Hregs.
  assert (Hrow_e : event_id row = e).
  { subst row. simpl. rewrite He, (truthy_some _ Hnee). reflexivity. }
  assert (Hrow_p : phone_e164 row = Some p) by (subst row; simpl; exact Hp).
  pose proof (phone_matches_inserted e p s s1 rid row Hfresh Hregs Hrow_e Hrow_p Hnone)
    as Hm.
  rewrite (payment_falls_through env2 payment s1);
    [|right; rewrite Hpp; by apply truthy_some|by left].
  rewrite Hnoid, app_nil_r.
  rewrite (match_by_phone_run env2 payment _ e p Hpe Hnee Hpp Hnp).
  rewrite phone_matches_oplog. fold (phone_matches e p s1). rewrite Hm. cbn zeta.
  simpl. split; [reflexivity|].
  assert (Hlook : registrations s1 !! rid = Some row) by (by rewrite Hregs, lookup_insert_eq).
  change (registration_id row) with rid.
  rewrite (alter_found _ _ _ _ Hlook), lookup_insert_eq.
  eexists. split; [reflexivity|]. by repeat split.
Qed.

Lemma signup_then_phone_payment_witness :
  fst (process_payment env_b pay_by_phone (snd (process_signup env_a signup_ann empty_session)))
  = {| success := true;
       pr_registration_id := Some "REG-ANN";
       link_status := Some MATCHED_BY_PHONE;
       is_emergency := false;
       error_message := None |}.
Proof.
  apply (signup_then_phone_payment env_a env_b signup_ann pay_by_phone empty_session
           "REG-ANN" "EVT-1" "+14155551234");
    try reflexivity; discriminate.
Defined.

(* ===================================================================== *)
(** * The payment audit row *)
(* ===================================================================== *)

Lemma match_by_phone_success env parsed s :
  success (fst (match_by_phone env parsed s)) = true.
Proof.
  unfold match_by_phone.
  destruct (truthy (pp_event_id parsed) && truthy (pp_phone_e164 parsed)).
  - unfold bind, _find_by_event_and_phone, select_by_event_phone, bind, log. simpl.
    match goal with |- context [filter ?P ?l] => destruct (filter P l) as [|r [|r2 rest]] end.
    + by rewrite orphan_run.
    + unfold update_registration, set_registrations, ret. simpl.
      by rewrite payment_log_run.
    + unfold ret. by rewrite payment_log_run.
  - by rewrite orphan_run.
Qed.

Lemma process_payment_success env parsed s :
  success (fst (process_payment env parsed s))
  = truthy (pp_registration_id parsed) || truthy (pp_phone_e164 parsed).
Proof.
  unfold process_payment.
  destruct (truthy (pp_registration_id parsed)) eqn:Hid; simpl.
  - unfold bind at 1. unfold session_get, bind, log. simpl.
    destruct (registrations s !! default EmptyString (pp_registration_id parsed)) as [r|].
    + unfold update_registration, set_registrations, ret. simpl.
      by rewrite payment_log_run.
    + apply match_by_phone_success.
  - destruct (truthy (pp_phone_e164 parsed)); simpl; [|done].
    apply match_by_phone_success.
Qed.

Lemma existsb_signup_phone l p :
  existsb (fun su => match su_phone su with
                     | AStr q => String.eqb q p
                     | _ => false
                     end) l = true
  <-> exists su, su ∈ l /\ su_phone su = AStr p.
Proof.
  rewrite existsb_exists. split.
  - intros (su & Hin & H). exists su. split; [by apply list_elem_of_In|].
    destruct (su_phone su) as [|n|q]; try done.
    by apply String.eqb_eq in H as ->.
  - intros (su & Hin & H). exists su. split; [by apply list_elem_of_In|].
    rewrite H. apply String.eqb_refl.
Qed.

(** X16. Every payment that is not rejected writes exactly one audit row.
    The row carries the canonical phone, or the raw one when there is no
    canonical phone, and its [recognized] flag is set exactly when that text
    is the [phone] column of some row of the signup audit table. *)
Theorem payment_audit_row env parsed s :
  truthy (pp_registration_id parsed) = true \/ truthy (pp_phone_e164 parsed) = true ->
  exists row,
    payments (snd (process_payment env parsed s)) = payments s ++ [row]
    /\ pay_phone row = or_else (pp_phone_e164 parsed) (pp_phone_raw parsed)
    /\ (pay_recognized row = true <->
        exists p su, pay_phone row = Some p /\ p <> EmptyString
                     /\ su ∈ signups s /\ su_phone su = AStr p).
Proof.
  intros Hsome.
  destruct (process_payment_tables env parsed s) as [_ [[Hf _]|[_ Hp]]].
  { rewrite process_payment_success in Hf. destruct Hsome as [H|H]; rewrite H in Hf;
      [done|by rewrite orb_true_r in Hf]. }
  exists (audit_row env parsed s). split; [exact Hp|]. split; [reflexivity|].
  unfold audit_row, audit_phone. cbn [pay_recognized pay_phone].
  destruct (or_else (pp_phone_e164 parsed) (pp_phone_raw parsed)) as [p|] eqn:E; simpl.
  - destruct (nonempty p) eqn:Hn.
    + rewrite existsb_signup_phone. split.
      * intros (su & Hin & Hsu). exists p, su. repeat split; try done. by destruct p.
      * intros (q & su & [= <-] & _ & Hin & Hsu). eauto.
    + split; [done|]. intros (q & su & [= <-] & Hq & _). by destruct p.
  - split; [done|]. by intros (q & su & H & _).
Qed.

Lemma payment_audit_row_witness :
  exists row,
    payments (snd (process_payment env_b pay_by_id s_ann)) = payments s_ann ++ [row]
    /\ pay_phone row = None.
Proof.
  destruct (payment_audit_row env_b pay_by_id s_ann (or_introl eq_refl))
    as (row & H1 & H2 & _).
  exists row. split; [exact H1|exact H2].
Defined.

Lemma payment_audit_recognized env parsed s p :
  or_else (pp_phone_e164 parsed) (pp_phone_raw parsed) = Some p ->
  p <> EmptyString ->
  (exists su, su ∈ signups s /\ su_phone su = AStr p) ->
  pay_recognized (audit_row env parsed s) = true.
Proof.
  intros Hp Hne Hsu. unfold audit_row, audit_phone. cbn [pay_recognized].
  rewrite Hp. rewrite (truthy_some _ Hne). by apply existsb_signup_phone.
Qed.

Lemma process_signup_audit_phone env parsed s :
  exists row, signups (snd (process_signup env parsed s)) = signups s ++ [row]
              /\ su_phone row = match ps_form_fields parsed with
                                | Some ff => getattr ff "phone"
                                | None => ANone
                                end.
Proof.
  unfold process_signup. unfold bind at 1. unfold session_get, bind, log. simpl.
  destruct (registrations s !! _) as [existing|];
    unfold SignupService._log_submission, update_registration, session_add_registration,
      session_add_signup, set_registrations, bind, ret, log; simpl;
    (eexists; split; [reflexivity|]); by destruct (ps_form_fields parsed).
Qed.

(** X17. The [recognized] flag links the two audit tables: once a signup
    has been processed whose profile record holds phone text [p], every later
    accepted payment audited under the same text [p] is recorded as
    recognized, whatever requests came in between. *)
Theorem payment_recognized_after_signup env0 signup ff p s0 s env parsed :
  ps_form_fields signup = Some ff ->
  getattr ff "phone" = AStr p ->
  p <> EmptyString ->
  reachable_from (snd (process_signup env0 signup s0)) s ->
  truthy (pp_registration_id parsed) = true \/ truthy (pp_phone_e164 parsed) = true ->
  or_else (pp_phone_e164 parsed) (pp_phone_raw parsed) = Some p ->
  exists row,
    payments (snd (process_payment env parsed s)) = payments s ++ [row]
    /\ pay_phone row = Some p
    /\ pay_recognized row = true.
Proof.
  intros Hff Hphone Hne Hreach Hsome Hp.
  destruct (process_payment_tables env parsed s) as [_ [[Hf _]|[_ Hpay]]].
  { rewrite process_payment_success in Hf. destruct Hsome as [H|H]; rewrite H in Hf;
      [done|by rewrite orb_true_r in Hf]. }
  exists (audit_row env parsed s). split; [exact Hpay|]. split; [exact Hp|].
  apply (payment_audit_recognized env parsed s p Hp Hne).
  destruct (process_signup_audit_phone env0 signup s0) as (row & Hrows & Hrow).
  rewrite Hff, Hphone in Hrow.
  assert (Hpre : signups (snd (process_signup env0 signup s0)) `prefix_of` signups s).
  { clear -Hreach. induction Hreach as [|s1 s2 _ IH Hstep]; [done|].
    etrans; [exact IH|]. exact (proj1 (step_audit_prefix _ _ Hstep)). }
  exists row. split; [|exact Hrow].
  destruct Hpre as [k ->]. rewrite Hrows.
  apply elem_of_app. left. apply elem_of_app. right. by left.
Qed.

Lemma s_dee_ann_from_s_dee : reachable_from s_dee s_dee_ann.
Proof. eapply reach_step; [apply reach_start|apply step_signup]. Qed.

Lemma payment_recognized_after_signup_witness :
  exists row,
    payments (snd (process_payment env_b pay_dee s_dee_ann)) = payments s_dee_ann ++ [row]
    /\ pay_phone row = Some "+14155550000"
    /\ pay_recognized row = true.
Proof.
  apply (payment_recognized_after_signup env_a signup_with_profile
           (setattr ExtractedFormFields_default "phone" (AStr "+14155550000"))
           "+14155550000" empty_session s_dee_ann env_b pay_dee);
    [reflexivity|vm_compute; reflexivity|discriminate|exact s_dee_ann_from_s_dee
    |by left|reflexivity].
Defined.

(* ===================================================================== *)
(** * The webhook endpoint *)
(* ===================================================================== *)

Import Main.

Lemma match_by_phone_result env parsed s :
  accepted_result (fst (match_by_phone env parsed s)).
Proof.
  unfold match_by_phone, accepted_result.
  destruct (truthy (pp_event_id parsed) && truthy (pp_phone_e164 parsed)).
  - unfold bind, _find_by_event_and_phone, select_by_event_phone, bind, log. simpl.
    match goal with |- context [filter ?P ?l] => destruct (filter P l) as [|r [|r2 rest]] end.
    + rewrite orphan_run. simpl. by right; left.
    + unfold update_registration, set_registrations, ret. simpl.
      rewrite payment_log_run. simpl. left. eexists _, _. split; [by right|reflexivity].
    + unfold ret. rewrite payment_log_run. simpl. right; right. eauto.
  - rewrite orphan_run. simpl. by right; left.
Qed.

(** What [process_payment] can return. *)
Lemma process_payment_result env parsed s :
  (fst (process_payment env parsed s) = rejected_result
   /\ snd (process_payment env parsed s) = s)
  \/ accepted_result (fst (process_payment env parsed s)).
Proof.
  unfold process_payment.
  destruct (negb (truthy (pp_registration_id parsed)) && negb (truthy (pp_phone_e164 parsed))).
  { by left. }
  right. destruct (truthy (pp_registration_id parsed)); [|apply match_by_phone_result].
  unfold bind at 1. unfold session_get, bind, log. simpl.
  destruct (registrations s !! default EmptyString (pp_registration_id parsed)) as [r|].
  - unfold update_registration, set_registrations, ret. simpl.
    rewrite payment_log_run. simpl. left. eexists _, _. split; [by left|reflexivity].
  - apply match_by_phone_result.
Qed.

(** X18. What the endpoint answers to a payment. A rejected payment is a 400
    with the validation message and an untouched session. An accepted one is
    a 201 "received" response: either not an emergency, with a registration
    id, a matched_by link status and the message "paid"; or an emergency with
    no registration id, the link status orphan_payment or
    ambiguous_phone_match, and the matcher's message. *)
Theorem handle_payment_response env parsed s :
  match fst (_handle_payment env parsed s) with
  | HTTPException code detail =>
      code = 400
      /\ detail = Some "Payment has neither registration_id nor valid phone number"
      /\ snd (_handle_payment env parsed s) = s
  | Created resp =>
      wr_status resp = "received" /\ wr_form_type resp = Some "payment"
      /\ ((wr_is_emergency resp = false
           /\ (exists id, wr_registration_id resp = Some id)
           /\ (wr_link_status resp = Some "matched_by_registration_id"
               \/ wr_link_status resp = Some "matched_by_phone")
           /\ wr_message resp = Some "paid")
          \/ (wr_is_emergency resp = true
              /\ wr_registration_id resp = None
              /\ ((wr_link_status resp = Some "orphan_payment"
                   /\ wr_message resp = Some "No matching registration found for payment")
                  \/ (wr_link_status resp = Some "ambiguous_phone_match"
                      /\ exists p, wr_message resp
                                   = Some ("Multiple registrations found for phone " +:+ p)))))
  | Unhandled _ => False
  end.
Proof.
  unfold _handle_payment, bind, ret.
  destruct (process_payment_result env parsed s) as [[Hres Hs]|Hacc].
  - destruct (process_payment env parsed s) as [res s']. simpl in *. subst res s'.
    by simpl.
  - destruct (process_payment env parsed s) as [res s']. simpl in *.
    destruct Hacc as [(id & st & Hst & ->)|[->|[p ->]]]; simpl.
    + split; [done|]. split; [done|]. left. split; [done|]. split; [by eauto|].
      split; [|done]. destruct Hst as [-> | ->]; [by left|by right].
    + split; [done|]. split; [done|]. right. split; [done|]. split; [done|]. by left.
    + split; [done|]. split; [done|]. right. split; [done|]. split; [done|]. right.
      split; [done|]. by eauto.
Qed.

(** X19. What the endpoint answers to a signup: on a store keyed by primary
    key it is always a 201 "received" response carrying a non-empty
    registration id under which the store then holds a registration, with
    the message "created" exactly when no registration had that id before and
    "updated" otherwise. *)
Theorem handle_signup_response env parsed s :
  store_wf s ->
  exists resp id,
    fst (_handle_signup env parsed s) = Created resp
    /\ wr_status resp = "received" /\ wr_form_type resp = Some "signup"
    /\ wr_is_emergency resp = false
    /\ wr_registration_id resp = Some id /\ id <> EmptyString
    /\ is_Some (registrations (snd (_handle_signup env parsed s)) !! id)
    /\ wr_message resp = Some (match registrations s !! id with
                               | Some _ => "updated"
                               | None => "created"
                               end).
Proof.
  intros Hwf. unfold _handle_signup, bind, ret.
  destruct (process_signup_run env parsed s) as (Hok & Hid & _ & H).
  set (id := if negb (truthy (ps_registration_id parsed)) then _ else _) in *.
  assert (Hne : id <> EmptyString)
    by apply chosen_id_nonempty, generated_registration_id_nonempty.
  destruct (process_signup env parsed s) as [res s']. simpl in *.
  rewrite Hok. simpl. eexists _, id. split; [reflexivity|]. simpl.
  repeat (split; [done|]).
  destruct (registrations s !! id) as [existing|] eqn:E; destruct H as [-> ->].
  - split; [|done]. rewrite (Hwf _ _ E), lookup_alter, decide_True by done.
    rewrite E. by eexists.
  - split; [|done]. rewrite lookup_insert_eq. by eexists.
Qed.

Lemma handle_signup_response_witness :
  exists resp,
    fst (_handle_signup env_b signup_ann s_ann) = Created resp
    /\ wr_registration_id resp = Some "REG-ANN"
    /\ wr_message resp = Some "updated".
Proof.
  destruct (handle_signup_response env_b signup_ann s_ann s_ann_wf)
    as (resp & id & Hrun & _ & _ & _ & Hid & _ & _ & Hmsg).
  exists resp. split; [exact Hrun|].
  assert (Hresp : fst (_handle_signup env_b signup_ann s_ann) = Created resp) by exact Hrun.
  vm_compute in Hresp. injection Hresp as <-. by split.
Defined.

Lemma handle_signup_created env parsed s :
  exists resp, fst (_handle_signup env parsed s) = Created resp.
Proof.
  unfold _handle_signup, bind, ret.
  destruct (process_signup_run env parsed s) as (Hok & _).
  destruct (process_signup env parsed s) as [res s']. simpl in *.
  rewrite Hok. simpl. eauto.
Qed.

Lemma handle_payment_failure env parsed s :
  (forall resp, fst (_handle_payment env parsed s) <> Created resp) ->
  snd (_handle_payment env parsed s) = s.
Proof.
  unfold _handle_payment, bind, ret. intros H.
  destruct (process_payment_result env parsed s) as [[Hres Hs]|Hacc].
  - destruct (process_payment env parsed s) as [res s']. simpl in *. by subst.
  - destruct (process_payment env parsed s) as [res s']. simpl in *.
    exfalso. destruct Hacc as [(id & st & _ & ->)|[->|[p ->]]]; simpl in H;
      by eapply H.
Qed.

Section Endpoint.

Variable PhoneNumber : Type.
Variable parse : string -> string -> option PhoneNumber.
Variable is_valid_number : PhoneNumber -> bool.
Variable format_e164 : PhoneNumber -> string.
Variable int_of_str : string -> option Z.
Variable hmac_sha256 : Verify.bytes -> Verify.bytes -> Verify.bytes.
Variable json_loads : Verify.bytes -> option Payload.
Variable settings : Config.Settings.

Local Abbreviation endpoint :=
  (receive_tally_webhook PhoneNumber parse is_valid_number format_e164 int_of_str
     hmac_sha256 json_loads settings).
Local Abbreviation parse_payload :=
  (ParsePayload.parse_tally_payload PhoneNumber parse is_valid_number format_e164
     int_of_str settings).

(** X20. A request that does not end in the 201 response has not touched the
    store at all: undecodable JSON, a missing or unknown form id, a failed or
    raising signature check, a raising parser and a rejected payment all
    leave the session exactly as it was, with no statement issued, before any
    rollback. *)
Theorem webhook_failure_touches_nothing env body signature_header s :
  (forall resp,
     fst (receive_tally_webhook PhoneNumber parse is_valid_number format_e164
            int_of_str hmac_sha256 json_loads settings env body signature_header s)
     <> Created resp) ->
  snd (receive_tally_webhook PhoneNumber parse is_valid_number format_e164
         int_of_str hmac_sha256 json_loads settings env body signature_header s) = s.
Proof.
  unfold receive_tally_webhook.
  destruct (json_loads body) as [payload|]; [|done].
  destruct (negb (nonempty (formId payload))); [done|].
  destruct (ParsePayload.determine_form_type settings (formId payload)) as [form_type|];
    [|done].
  destruct (Verify.verify_tally_signature _ _ _ _ _) as [[is_valid error]|e]; [|done].
  destruct (negb is_valid); [done|].
  destruct (ParsePayload.parse_tally_payload _ _ _ _ _ _ _ _) as [[ps|pp]|e]; [| |done].
  - intros H. destruct (handle_signup_created env ps s) as [resp Hresp].
    by destruct (H resp).
  - apply handle_payment_failure.
Qed.

(** X21. A payment payload that carries no registration id, and whose phone
    answer is missing or is not a valid number, parses without error, keeps
    the payload it came from, and is then rejected by the matcher without
    touching the session. *)
Theorem payment_payload_without_identifiers env payload s :
  truthy (extract_field_value (fields payload) "registration_id" PAYMENT_FIELD_MAP) = false ->
  (forall raw,
     extract_field_value (fields payload) "phone" PAYMENT_FIELD_MAP = Some raw ->
     Phone.normalize_phone PhoneNumber parse is_valid_number format_e164 raw
       (Config.default_phone_region settings) = None) ->
  exists parsed,
    parse_payload payload "payment" = Ok (inr parsed)
    /\ pp_raw_payload parsed = payload
    /\ process_payment env parsed s = (rejected_result, s).
Proof.
  intros Hid Hphone. unfold ParsePayload.parse_tally_payload.
  change (String.eqb "payment" "signup") with false. cbv iota.
  eexists. split; [reflexivity|]. split; [reflexivity|].
  unfold process_payment. cbn [pp_registration_id pp_phone_e164]. rewrite Hid.
  destruct (extract_field_value (fields payload) "phone" PAYMENT_FIELD_MAP) as [raw|] eqn:E.
  - destruct (truthy (Some raw)); [|done].
    cbn [default from_option id]. unfold id. by rewrite (Hphone raw eq_refl).
  - done.
Qed.

End Endpoint.

Lemma webhook_failure_touches_nothing_witness :
  fst (endpoint_bad_phone settings_open env_b [] None s_ann)
  = HTTPException 400 (Some "Payment has neither registration_id nor valid phone number")
  /\ snd (endpoint_bad_phone settings_open env_b [] None s_ann) = s_ann.
Proof.
  assert (Hout : fst (endpoint_bad_phone settings_open env_b [] None s_ann)
                 = HTTPException 400
                     (Some "Payment has neither registration_id nor valid phone number"))
    by (vm_compute; reflexivity).
  split; [exact Hout|].
  apply (webhook_failure_touches_nothing string CanonicalOnly.parse
           CanonicalOnly.is_valid_number CanonicalOnly.format_e164 (fun _ => None)
           concat_mac (fun _ => Some bad_phone_payload) settings_open env_b [] None s_ann).
  intros resp. fold (endpoint_bad_phone settings_open env_b [] None s_ann).
  rewrite Hout. discriminate.
Defined.

Lemma payment_payload_without_identifiers_witness :
  exists parsed,
    ParsePayload.parse_tally_payload string CanonicalOnly.parse
      CanonicalOnly.is_valid_number CanonicalOnly.format_e164 (fun _ => None)
      settings_open bad_phone_payload "payment" = Ok (inr parsed)
    /\ pp_phone_raw parsed = Some "call me"
    /\ pp_phone_e164 parsed = None
    /\ process_payment env_b parsed s_ann = (rejected_result, s_ann).
Proof.
  destruct (payment_payload_without_identifiers string CanonicalOnly.parse
              CanonicalOnly.is_valid_number CanonicalOnly.format_e164 (fun _ => None)
              settings_open env_b bad_phone_payload s_ann)
    as (parsed & Hparse & _ & Hrun).
  - vm_compute. reflexivity.
  - intros raw Hraw. vm_compute in Hraw. injection Hraw as <-. vm_compute. reflexivity.
  - exists parsed. split; [exact Hparse|].
    assert (Hp := Hparse). vm_compute in Hp. injection Hp as <-.
    split; [reflexivity|]. split; [reflexivity|]. exact Hrun.
Defined.

(* ===================================================================== *)
(** * The audit status *)
(* ===================================================================== *)

Lemma all_done_field_first pre f post :
  Forall (fun g => contains "All done" (f_label g) = false) pre ->
  contains "All done" (f_label f) = true ->
  all_done_field (pre ++ f :: post) = Some f.
Proof.
  intros Hpre Hf. induction Hpre as [|g pre Hg _ IH]; simpl.
  - by rewrite Hf.
  - by rewrite Hg.
Qed.

Lemma all_done_field_none l :
  Forall (fun g => contains "All done" (f_label g) = false) l ->
  all_done_field l = None.
Proof. induction 1 as [|g l Hg _ IH]; simpl; [done|]. by rewrite Hg. Qed.

(** X22. The audit status is read from the first submitted field whose
    label contains "All done" and from nothing else: the fields before it and
    all the fields after it, further "All done" fields included, make no
    difference; and without such a field the status is absent. *)
Theorem audit_status_first_field payload :
  (forall pre f post,
     fields payload = pre ++ f :: post ->
     Forall (fun g => contains "All done" (f_label g) = false) pre ->
     contains "All done" (f_label f) = true ->
     audit_status payload = audit_status (with_fields payload [f]))
  /\ (Forall (fun g => contains "All done" (f_label g) = false) (fields payload) ->
      audit_status payload = None).
Proof.
  split.
  - intros pre f post Hfields Hpre Hf. unfold audit_status, with_fields.
    cbn [fields]. rewrite Hfields, (all_done_field_first pre f post Hpre Hf).
    simpl. by rewrite Hf.
  - intros H. unfold audit_status. by rewrite all_done_field_none.
Qed.

Lemma audit_status_first_field_witness :
  audit_status all_done_payload = Some "Paid by card, opt-9".
Proof.
  destruct (audit_status_first_field all_done_payload) as [H _].
  rewrite (H [ {| f_key := "question_a"; f_label := "Your phone";
                  f_value := VScalar (SStr "0612345678"); f_type := "INPUT_PHONE_NUMBER";
                  f_options := [] |} ]
             {| f_key := "question_b"; f_label := "All done?";
                f_value := VList [SStr "opt-1"; SStr "opt-9"]; f_type := "CHECKBOXES";
                f_options := [ {| opt_id := SStr "opt-1"; opt_text := "Paid by card" |} ] |}
             [ {| f_key := "question_c"; f_label := "All done (again)";
                  f_value := VScalar (SStr "ignored"); f_type := "INPUT_TEXT";
                  f_options := [] |} ]);
    [reflexivity|reflexivity|by repeat constructor|reflexivity].
Defined.
